(** * Repository token-budget estimator

    A shallow embedding of [utils/token_count.py],
    [utils/estimate_repo_tokens.py] and of [main.py] (the [estimate-repo]
    branch and the tutorial branch up to the start of the flow), with the
    properties of the estimator proved about it.

    Layout: Python values and exceptions, UTF-8 encoding, binary64
    arithmetic, the token estimator, the aggregator, the command-line
    layer; then the lemmas and theorems. *)

From Stdlib Require Import ZArith NArith QArith Qround Qpower List String Ascii Bool.
From Stdlib Require Import Lia Lqa Zpower.
From Stdlib Require Import Permutation.
From Stdlib Require Import Floats.SpecFloat.
Import ListNotations.

Local Open Scope string_scope.
Local Open Scope list_scope.
Local Open Scope Z_scope.

(** ** Python exceptions and fallible results *)

(** The exceptions the modelled code can raise.  [SystemExit] carries the
    process exit status; [AdapterError] stands for whatever a crawl adapter
    raises. *)
Inductive exn : Type :=
| ValueError (msg : string)
| OverflowError (msg : string)
| UnicodeEncodeError
| SystemExit (code : Z)
| AdapterError (msg : string).

Inductive result (A : Type) : Type :=
| Ok (a : A)
| Raise (e : exn).

Arguments Ok {A} a.
Arguments Raise {A} e.

Definition rbind {A B : Type} (r : result A) (k : A -> result B) : result B :=
  match r with
  | Ok a => k a
  | Raise e => Raise e
  end.

Declare Scope result_scope.
Delimit Scope result_scope with result.
Notation "x <- r ;; k" := (rbind r (fun x => k))
  (at level 61, r at next level, right associativity) : result_scope.

(** ** Python strings

    A [str] is a sequence of Unicode code points, each below 0x110000;
    [len] counts code points.  Paths, model names and messages are never
    inspected character by character, so they stay ordinary [string]s. *)

Definition codepoint : Type := N.
Definition pystr : Type := list codepoint.

Definition len {A : Type} (l : list A) : Z := Z.of_nat (List.length l).

Definition is_surrogate (c : codepoint) : bool :=
  ((0xD800 <=? c) && (c <=? 0xDFFF))%N.
Definition is_ascii (c : codepoint) : bool := (c <? 0x80)%N.

(** [x or ""] on an optional string. *)
Definition or_empty (text : option pystr) : pystr :=
  match text with
  | Some (c :: s) => c :: s
  | _ => []
  end.

(** Truthiness of an optional ordinary string: [None] and [""] are falsy. *)
Definition truthy (s : option string) : bool :=
  match s with
  | Some (String _ _) => true
  | _ => false
  end.

(** ** [str.encode("utf-8")] *)

Definition byte_of_N (n : N) : Byte.byte :=
  match Byte.of_N n with
  | Some b => b
  | None => Byte.x00
  end.

(** The strict UTF-8 codec: one to four bytes per code point, and
    [UnicodeEncodeError] on a lone surrogate. *)
Definition utf8_encode_codepoint (c : codepoint) : result (list Byte.byte) :=
  if (c <? 0x80)%N then
    Ok [byte_of_N c]
  else if (c <? 0x800)%N then
    Ok [byte_of_N (N.lor 0xC0 (N.shiftr c 6));
        byte_of_N (N.lor 0x80 (N.land c 0x3F))]
  else if (c <? 0x10000)%N then
    if is_surrogate c then Raise UnicodeEncodeError
    else
      Ok [byte_of_N (N.lor 0xE0 (N.shiftr c 12));
          byte_of_N (N.lor 0x80 (N.land (N.shiftr c 6) 0x3F));
          byte_of_N (N.lor 0x80 (N.land c 0x3F))]
  else
    Ok [byte_of_N (N.lor 0xF0 (N.shiftr c 18));
        byte_of_N (N.lor 0x80 (N.land (N.shiftr c 12) 0x3F));
        byte_of_N (N.lor 0x80 (N.land (N.shiftr c 6) 0x3F));
        byte_of_N (N.lor 0x80 (N.land c 0x3F))].

Fixpoint utf8_encode (s : pystr) : result (list Byte.byte) :=
  match s with
  | [] => Ok []
  | c :: rest =>
      (bs <- utf8_encode_codepoint c ;;
       bs' <- utf8_encode rest ;;
       Ok (bs ++ bs'))%result
  end.

(** The strings [encode] accepts. *)
Definition encodable (s : pystr) : bool := forallb (fun c => negb (is_surrogate c)) s.

(** ** Python floats: IEEE 754 binary64 *)

Module Float64.

Definition prec : Z := 53.
Definition emax : Z := 1024.

Definition float : Type := spec_float.

(** [x / y] and [x * y] on two floats, neither divisor being zero here. *)
Definition truediv (x y : float) : float := SFdiv prec emax x y.
Definition mul (x y : float) : float := SFmul prec emax x y.
Definition leb (x y : float) : bool := SFleb x y.

(** Conversion of an [int] operand to a float (round to nearest, ties to
    even), which raises when the integer is out of range. *)
Definition of_int (n : Z) : result float :=
  match binary_normalize prec emax n 0 false with
  | S754_infinity _ => Raise (OverflowError "int too large to convert to float")
  | f => Ok f
  end.

(** [int(x)]: truncation toward zero. *)
Definition to_int (x : float) : result Z :=
  match x with
  | S754_zero _ => Ok 0
  | S754_finite s m e =>
      Ok (cond_Zopp s (if 0 <=? e then Z.shiftl (Zpos m) e
                       else Z.shiftr (Zpos m) (- e)))
  | S754_infinity _ => Raise (OverflowError "cannot convert float infinity to integer")
  | S754_nan => Raise (ValueError "cannot convert float NaN to integer")
  end.

(** The rational a finite float denotes. *)
Definition to_Q (x : float) : Q :=
  match x with
  | S754_finite s m e =>
      let q := if 0 <=? e then inject_Z (Z.shiftl (Zpos m) e)
               else Qmake (Zpos m) (Z.to_pos (2 ^ (- e)))
      in if s then Qopp q else q
  | _ => 0%Q
  end.

(** [math.ceil(x)] *)
Definition ceil (x : float) : result Z :=
  match x with
  | S754_zero _ => Ok 0
  | S754_finite s m e =>
      Ok (if 0 <=? e then cond_Zopp s (Z.shiftl (Zpos m) e)
          else if s then - (Z.shiftr (Zpos m) (- e))
          else - (Z.shiftr (Zneg m) (- e)))
  | S754_infinity _ => Raise (OverflowError "cannot convert float infinity to integer")
  | S754_nan => Raise (ValueError "cannot convert float NaN to integer")
  end.

(** [a / b] on two [int]s that a double holds exactly (below [2 ^ 53] in
    absolute value) and a non-zero [b]: the quotient of the two doubles. *)
Definition int_truediv (a b : Z) : result float :=
  (x <- of_int a ;;
   y <- of_int b ;;
   Ok (truediv x y))%result.

(** Zeros and finite positive numbers. *)
Definition is_nonneg_finite (x : float) : bool :=
  match x with
  | S754_zero _ | S754_finite false _ _ => true
  | _ => false
  end.

End Float64.

(** The literal [100.0]. *)
Definition hundred : Float64.float := S754_finite false 7036874417766400 (-46).

(** ** Rounding, as the statements speak of it *)

Abbreviation fexp64 := (fexp Float64.prec Float64.emax).

(** [2 ^ e] as a rational, for an exponent of either sign. *)
Definition bpow (e : Z) : Q := (2 ^ e)%Q.

(** [located t m l]: the rational [t] lies in the unit interval that starts
    at the integer [m], at the place the location [l] tells: on [m], below
    the middle, on it, or above it. *)
Inductive located (t : Q) (m : Z) : location -> Prop :=
| located_exact : (t == inject_Z m)%Q -> located t m loc_Exact
| located_lt : (inject_Z m < t)%Q -> (t < inject_Z m + (1 # 2))%Q ->
    located t m (loc_Inexact Lt)
| located_eq : (t == inject_Z m + (1 # 2))%Q -> located t m (loc_Inexact Eq)
| located_gt : (inject_Z m + (1 # 2) < t)%Q -> (t < inject_Z m + 1)%Q ->
    located t m (loc_Inexact Gt).

(** The same for a mantissa with its round and sticky bits. *)
Definition located_record (t : Q) (mrs : shr_record) : Prop :=
  0 <= shr_m mrs /\ located t (shr_m mrs) (loc_of_shr_record mrs).

(** [within_rounding v r]: [r] is [v] up to one rounding to nearest, that
    is up to [2 ^ -53] of [v], or [2 ^ -1075] when the result is
    subnormal. *)
Definition within_rounding (v r : Q) : Prop :=
  (v - (v * bpow (-53) + bpow (-1075)) <= r <= v + (v * bpow (-53) + bpow (-1075)))%Q.

(** ** utils/token_count.py *)

(** [math.ceil(n / 4)] as Python evaluates it, through a double. *)
Definition approx_tokens_in_doubles (n : Z) : result Z :=
  (q <- Float64.int_truediv n 4 ;; Float64.ceil q)%result.

(** [math.ceil(n / d)] in integers.  For [d = 4] and every [n] below
    [2 ^ 53], a length no string in memory reaches, this is what
    [approx_tokens_in_doubles] returns (lemma
    [approx_tokens_in_doubles_exact]): the division by a power of two is
    exact. *)
Definition math_ceil_div (n d : Z) : Z := - ((- n) / d).

Definition _heuristic_token_count (text : pystr) : Z :=
  match text with
  | [] => 0
  | _ :: _ =>
      let approx_tokens := math_ceil_div (len text) 4 in
      Z.max approx_tokens 0
  end.

Definition count_tokens (text : option pystr) (model : option string) : Z :=
  _heuristic_token_count (or_empty text).

(** The same two functions with line 10 evaluated as Python does, in
    doubles: the conversion, the division and [math.ceil] may each raise.
    (For a length above [2 ^ 53] Python rounds the quotient once; the
    divisor being 4, that is the quotient of the rounded length, which is
    what [approx_tokens_in_doubles] computes.) *)
Definition _heuristic_token_count_in_doubles (text : pystr) : result Z :=
  match text with
  | [] => Ok 0
  | _ :: _ =>
      (approx_tokens <- approx_tokens_in_doubles (len text) ;;
       Ok (Z.max approx_tokens 0))%result
  end.

Definition count_tokens_in_doubles (text : option pystr) (model : option string)
    : result Z :=
  _heuristic_token_count_in_doubles (or_empty text).

(** ** utils/estimate_repo_tokens.py: the aggregation *)

(** The [files] mapping a crawl yields: path to content, in the insertion
    order a [dict] iterates in; the content of a file may be [None]. *)
Definition files_dict : Type := list (string * option pystr).

Definition patterns : Type := option (list string).

Record per_file_entry : Type := {
  path : string;
  size_bytes : Z;
  tokens : Z
}.

(** The dictionary [estimate_repo_tokens] returns. *)
Record report : Type := {
  model : option string;
  max_context_tokens : option Z;
  overhead_percent : Float64.float;
  sum_file_tokens : Z;
  overhead_tokens : Z;
  total_tokens : Z;
  files : list per_file_entry
}.

(** [len(content.encode("utf-8")) if content is not None else 0] *)
Definition encoded_size (content : option pystr) : result Z :=
  match content with
  | Some s => (bs <- utf8_encode s ;; Ok (len bs))%result
  | None => Ok 0
  end.

(** The [for file_path, content in files.items()] loop, with its two
    accumulators. *)
Fixpoint score_files (model : option string) (items : files_dict)
    (per_file : list per_file_entry) (sum_file_tokens : Z)
    : result (list per_file_entry * Z) :=
  match items with
  | [] => Ok (per_file, sum_file_tokens)
  | (file_path, content) :: rest =>
      let tokens := count_tokens content model in
      (size_bytes <- encoded_size content ;;
       score_files model rest
         (per_file ++ [{| path := file_path; size_bytes := size_bytes; tokens := tokens |}])
         (sum_file_tokens + tokens))%result
  end.

(** [int(sum_file_tokens * (overhead_percent / 100.0))] *)
Definition apply_overhead (sum_file_tokens : Z) (overhead_percent : Float64.float)
    : result Z :=
  let fraction := Float64.truediv overhead_percent hundred in
  (s <- Float64.of_int sum_file_tokens ;;
   Float64.to_int (Float64.mul s fraction))%result.

(** The body of [estimate_repo_tokens] once the files are gathered. *)
Definition estimate_files (files : files_dict) (model : option string)
    (overhead_percent : Float64.float) : result report :=
  (scored <- score_files model files [] 0 ;;
   let per_file := fst scored in
   let sum_file_tokens := snd scored in
   overhead_tokens <- apply_overhead sum_file_tokens overhead_percent ;;
   let grand_total := sum_file_tokens + overhead_tokens in
   Ok {| model := model;
         max_context_tokens := None;
         overhead_percent := overhead_percent;
         sum_file_tokens := sum_file_tokens;
         overhead_tokens := overhead_tokens;
         total_tokens := grand_total;
         files := per_file |})%result.

(** What the specification asks of the overhead: the exact floor of
    [sum_file_tokens * p / 100]. *)
Definition exact_overhead (sum_file_tokens : Z) (p : Float64.float) : Z :=
  Qfloor (inject_Z sum_file_tokens * Float64.to_Q p / inject_Z 100).

(** ** The world the command runs in *)

(** [payload = {**result, "within_limit": within_limit}] *)
Record payload : Type := {
  payload_result : report;
  within_limit : bool
}.

(** [printed]: the payload without ["files"], with ["file_count"]. *)
Record printed : Type := {
  printed_model : option string;
  printed_max_context_tokens : option Z;
  printed_overhead_percent : Float64.float;
  printed_sum_file_tokens : Z;
  printed_overhead_tokens : Z;
  printed_total_tokens : Z;
  printed_within_limit : bool;
  file_count : Z
}.

Inductive io_event : Type :=
| CrawlLocal (source_path : string)
| CrawlGithub (repo_url : string) (token : option string)
| EnvironGet (name : string)
| PrintJson (doc : printed)
| PrintLine (text : string)
| FileWritten (out : string) (doc : payload)
| Stderr (text : string).


(** [environ] is [os.environ]; [write_error out] is [Some msg] when opening
    or dumping to [out] raises an exception whose text is [msg]; [trace]
    lists the operations performed so far, oldest first. *)
Record World : Type := {
  environ : string -> option string;
  write_error : string -> option string;
  trace : list io_event
}.

Definition log (ev : io_event) (w : World) : World :=
  {| environ := environ w;
     write_error := write_error w;
     trace := trace w ++ [ev] |}.

(** Computations that read and extend the world and may raise. *)
Definition M (A : Type) : Type := World -> result A * World.

Definition ret {A : Type} (a : A) : M A := fun w => (Ok a, w).
Definition raise {A : Type} (e : exn) : M A := fun w => (Raise e, w).
Definition bind {A B : Type} (m : M A) (k : A -> M B) : M B :=
  fun w =>
    match m w with
    | (Ok a, w') => k a w'
    | (Raise e, w') => (Raise e, w')
    end.
Definition lift {A : Type} (r : result A) : M A := fun w => (r, w).
Definition emit (ev : io_event) : M unit := fun w => (Ok tt, log ev w).

Declare Scope io_scope.
Delimit Scope io_scope with io.
Notation "x <- m ;; k" := (bind m (fun x => k))
  (at level 61, m at next level, right associativity) : io_scope.
Notation "m ;;; k" := (bind m (fun _ => k))
  (at level 61, right associativity) : io_scope.

(** [os.environ.get(name)] *)
Definition environ_get (name : string) : M (option string) :=
  fun w => (Ok (environ w name), log (EnvironGet name) w).

(** The namespace [parse_args] builds for the [estimate-repo] subcommand. *)
Module Args.
Record t : Type := {
  repo : option string;
  dir : option string;
  token : option string;
  include : option (list string);
  exclude : option (list string);
  max_size : Z;
  model : option string;
  max_context_tokens : Z;
  overhead_percent : Float64.float;
  out : option string
}.
End Args.

(** What a crawl adapter returns: a dictionary that may hold ["files"]. *)
Record crawl_result : Type := {
  crawl_files : option files_dict
}.

(** [result.get("files", {})] *)
Definition get_files (r : crawl_result) : files_dict :=
  match crawl_files r with
  | Some fs => fs
  | None => []
  end.

Definition text_of (s : option string) : string :=
  match s with
  | Some x => x
  | None => ""
  end.

(** [set(xs) if xs else None] *)
Definition pattern_set (xs : option (list string)) : patterns :=
  match xs with
  | Some (x :: rest) => Some (nodup string_dec (x :: rest))
  | _ => None
  end.

(** ** utils/estimate_repo_tokens.py: gathering, estimating, reporting *)

Section Estimator.

(** The two crawl adapters ([utils/crawl_local_files.py] and
    [utils/crawl_github_files.py]) are parameters: given their arguments
    they return a dictionary or raise. *)
Variable crawl_local_files :
  forall (directory : string) (include_patterns exclude_patterns : patterns)
         (max_file_size : Z) (use_relative_paths : bool), result crawl_result.
Variable crawl_github_files :
  forall (repo_url : string) (token : option string) (max_file_size : Z)
         (use_relative_paths : bool) (include_patterns exclude_patterns : patterns),
    result crawl_result.

Definition _gather_files (source_path repo_url : option string)
    (include_patterns exclude_patterns : patterns) (max_file_size : Z)
    (github_token : option string) : M files_dict :=
  if truthy source_path then
    (emit (CrawlLocal (text_of source_path)) ;;;
     result <- lift (crawl_local_files (text_of source_path)
                       include_patterns exclude_patterns max_file_size true) ;;
     ret (get_files result))%io
  else if truthy repo_url then
    (emit (CrawlGithub (text_of repo_url) github_token) ;;;
     result <- lift (crawl_github_files (text_of repo_url) github_token
                       max_file_size true include_patterns exclude_patterns) ;;
     ret (get_files result))%io
  else
    raise (ValueError "Either source_path or repo_url must be provided.").

Definition estimate_repo_tokens (path repo : option string)
    (include_patterns exclude_patterns : patterns) (max_file_size : Z)
    (model : option string) (overhead_percent : Float64.float)
    (github_token : option string) : M report :=
  (files <- _gather_files path repo include_patterns exclude_patterns
              max_file_size github_token ;;
   lift (estimate_files files model overhead_percent))%io.

(** Lines 89 to 112 of [run_estimate_cli]: the decision, the summary on
    standard output, the optional file, the exit code. *)
Definition report_and_exit (result : report) (args : Args.t) : M Z :=
  let result :=
    {| model := model result;
       max_context_tokens := Some (Args.max_context_tokens args);
       overhead_percent := overhead_percent result;
       sum_file_tokens := sum_file_tokens result;
       overhead_tokens := overhead_tokens result;
       total_tokens := total_tokens result;
       files := files result |} in
  let within_limit := total_tokens result <=? Args.max_context_tokens args in
  let payload := {| payload_result := result; within_limit := within_limit |} in
  let file_count := len (files result) in
  let printed :=
    {| printed_model := model result;
       printed_max_context_tokens := max_context_tokens result;
       printed_overhead_percent := overhead_percent result;
       printed_sum_file_tokens := sum_file_tokens result;
       printed_overhead_tokens := overhead_tokens result;
       printed_total_tokens := total_tokens result;
       printed_within_limit := within_limit;
       file_count := file_count |} in
  (emit (PrintJson printed) ;;;
   (if truthy (Args.out args) then
      fun w =>
        match write_error w (text_of (Args.out args)) with
        | None => emit (FileWritten (text_of (Args.out args)) payload) w
        | Some e =>
            emit (PrintLine ("Warning: Failed to write output to "
                             ++ text_of (Args.out args) ++ ": " ++ e)%string) w
        end
    else ret tt) ;;;
   ret (if within_limit then 0 else 2))%io.

Definition run_estimate_cli (args : Args.t) : M Z :=
  (github_token <-
     (if truthy (Args.repo args) then
        if truthy (Args.token args) then ret (Args.token args)
        else environ_get "GITHUB_TOKEN"
      else ret None) ;;
   result <- estimate_repo_tokens (Args.dir args) (Args.repo args)
               (pattern_set (Args.include args)) (pattern_set (Args.exclude args))
               (Args.max_size args) (Args.model args) (Args.overhead_percent args)
               github_token ;;
   report_and_exit result args)%io.

(** ** main.py: the [estimate-repo] subcommand *)

(** The options of the subcommand as they stand on the command line, each
    [None] when its flag is not given; numbers are already converted by
    their [type=]. *)
Record estimate_argv : Type := {
  given_repo : option string;
  given_dir : option string;
  given_token : option string;
  given_include : option (list string);
  given_exclude : option (list string);
  given_max_size : option Z;
  given_model : option string;
  given_max_context_tokens : option Z;
  given_overhead_percent : option Float64.float;
  given_out : option string
}.

Definition default {A : Type} (d : A) (o : option A) : A :=
  match o with
  | Some a => a
  | None => d
  end.

(** The literal [3.0]. *)
Definition three : Float64.float := S754_finite false 6755399441055744 (-51).

(** [parser.parse_args()] for the subcommand.  [--repo] and [--dir] form a
    required mutually exclusive group: the parser reports a usage error on
    standard error and exits with status 2 when both or none of them are
    given.  (The message names the flags in the order they were given,
    which is not modelled.) *)
Definition parse_args (argv : estimate_argv) : M Args.t :=
  match given_repo argv, given_dir argv with
  | Some _, Some _ =>
      (emit (Stderr "error: argument --dir: not allowed with argument --repo") ;;;
       raise (SystemExit 2))%io
  | None, None =>
      (emit (Stderr "error: one of the arguments --repo --dir is required") ;;;
       raise (SystemExit 2))%io
  | _, _ =>
      ret {| Args.repo := given_repo argv;
             Args.dir := given_dir argv;
             Args.token := given_token argv;
             Args.include := given_include argv;
             Args.exclude := given_exclude argv;
             Args.max_size := default 100000 (given_max_size argv);
             Args.model := Some (default "gpt-5" (given_model argv));
             Args.max_context_tokens := default 200000 (given_max_context_tokens argv);
             Args.overhead_percent := default three (given_overhead_percent argv);
             Args.out := given_out argv |}
  end.

(** [main()] when [args.command == "estimate-repo"], from the parsing of
    the arguments on: it always ends by raising, [SystemExit(exit_code)]
    when the estimate ran. *)
Definition main (argv : estimate_argv) : M unit :=
  (args <- parse_args argv ;;
   exit_code <- run_estimate_cli args ;;
   raise (SystemExit exit_code))%io.

End Estimator.

(** ** Example data *)

(** A string of [n] copies of one code point. *)
Definition repeat_char (c : codepoint) (n : nat) : pystr := List.repeat c n.

(** Three times U+00E9, six bytes in UTF-8. *)
Definition three_e_acute : pystr := [0xE9; 0xE9; 0xE9]%N.

(** The literals [29.0], [50.0] and [0.0]. *)
Definition twenty_nine : Float64.float := S754_finite false 8162774324609024 (-48).
Definition fifty : Float64.float := S754_finite false 7036874417766400 (-47).
Definition zero : Float64.float := S754_zero false.

(** One file of 400 ASCII characters, hence 100 tokens. *)
Definition one_file_400 : files_dict := [("a.py", Some (repeat_char 0x61%N 400))].

(** The two files of the end-to-end scenario, 400 and 800 bytes of text. *)
Definition two_files : files_dict :=
  [("a.py", Some (repeat_char 0x61%N 400)); ("b.py", Some (repeat_char 0x62%N 800))].

Definition quiet_world : World :=
  {| environ := fun _ => None; write_error := fun _ => None; trace := [] |}.

(** A world in which every write fails. *)
Definition readonly_world : World :=
  {| environ := fun _ => None;
     write_error := fun _ => Some "Permission denied";
     trace := [] |}.

(** Adapters that find the two files wherever they look. *)
Definition local_stub (directory : string) (inc exc : patterns) (max_file_size : Z)
    (rel : bool) : result crawl_result :=
  Ok {| crawl_files := Some two_files |}.
Definition github_stub (repo_url : string) (token : option string) (max_file_size : Z)
    (rel : bool) (inc exc : patterns) : result crawl_result :=
  Ok {| crawl_files := Some one_file_400 |}.

Definition no_flags : estimate_argv :=
  {| given_repo := None; given_dir := None; given_token := None;
     given_include := None; given_exclude := None; given_max_size := None;
     given_model := None; given_max_context_tokens := None;
     given_overhead_percent := None; given_out := None |}.

Definition sample_args (limit : Z) (out : option string) : Args.t :=
  {| Args.repo := None; Args.dir := Some "proj"; Args.token := None;
     Args.include := None; Args.exclude := None; Args.max_size := 100000;
     Args.model := Some "gpt-5"; Args.max_context_tokens := limit;
     Args.overhead_percent := three; Args.out := out |}.

Definition sample_report : report :=
  {| model := Some "gpt-5"; max_context_tokens := None; overhead_percent := three;
     sum_file_tokens := 300; overhead_tokens := 9; total_tokens := 309;
     files := [] |}.

(** ** Quantities the statements speak about *)

(** The sum of the estimates of the files of a mapping. *)
Definition total_of (model : option string) (items : files_dict) : Z :=
  fold_right Z.add 0 (map (fun item => count_tokens (snd item) model) items).

Definition item_encodable (item : string * option pystr) : bool :=
  match snd item with
  | Some s => encodable s
  | None => true
  end.

(** The UTF-8 size of a content, 0 for [None] (and for a content that has
    no encoding). *)
Definition utf8_size (content : option pystr) : Z :=
  match encoded_size content with
  | Ok n => n
  | Raise _ => 0
  end.

Definition entry_of (model : option string) (item : string * option pystr)
    : per_file_entry :=
  {| path := fst item;
     size_bytes := utf8_size (snd item);
     tokens := count_tokens (snd item) model |}.

(** The character count of a content, 0 for [None]. *)
Definition char_count (content : option pystr) : Z :=
  match content with
  | Some s => len s
  | None => 0
  end.


(** The aggregate figures of a report. *)
Definition figures (r : report) : Z * Z * Z :=
  (sum_file_tokens r, overhead_tokens r, total_tokens r).

(** The events a run appended to the trace. *)
Definition new_events (before after : World) : list io_event :=
  skipn (List.length (trace before)) (trace after).

Definition both_flags : estimate_argv :=
  {| given_repo := Some "https://github.com/o/r"; given_dir := Some "proj";
     given_token := None; given_include := None; given_exclude := None;
     given_max_size := None; given_model := None;
     given_max_context_tokens := None; given_overhead_percent := None;
     given_out := None |}.

(** The command line [estimate-repo --dir proj --max-context-tokens limit]. *)
Definition dir_flag (limit : Z) : estimate_argv :=
  {| given_repo := None; given_dir := Some "proj";
     given_token := None; given_include := None; given_exclude := None;
     given_max_size := None; given_model := None;
     given_max_context_tokens := Some limit; given_overhead_percent := None;
     given_out := None |}.

(** A file whose content is not ASCII. *)
Definition accented_file : files_dict := [("cafe.txt", Some three_e_acute)].

(** ** Signs and finiteness of a percentage *)

(** [has_sign s x]: [x] is a zero, or a non-zero number or an infinity whose
    sign bit is [s] ([true] for the negative ones). *)
Definition has_sign (s : bool) (x : Float64.float) : bool :=
  match x with
  | S754_zero _ => true
  | S754_finite s' _ _ | S754_infinity s' => Bool.eqb s s'
  | S754_nan => false
  end.

(** [math.isfinite(x)] *)
Definition is_finite (x : Float64.float) : bool :=
  match x with
  | S754_zero _ | S754_finite _ _ _ => true
  | S754_infinity _ | S754_nan => false
  end.

(** ** Readings of the trace *)

(** Events that show on the terminal or on disk. *)
Definition is_output (ev : io_event) : bool :=
  match ev with
  | PrintJson _ | PrintLine _ | FileWritten _ _ | Stderr _ => true
  | CrawlLocal _ | CrawlGithub _ _ | EnvironGet _ => false
  end.

(** [token or os.environ.get("GITHUB_TOKEN")] as the world [w] answers it. *)
Definition token_or_environ (token : option string) (w : World) : option string :=
  if truthy token then token else environ w "GITHUB_TOKEN".

(** ** main.py: the tutorial command *)

(** The two default pattern sets, in the order of the source. *)
Definition DEFAULT_INCLUDE_PATTERNS : list string :=
  ["*.py"; "*.js"; "*.jsx"; "*.ts"; "*.tsx"; "*.go"; "*.java"; "*.pyi"; "*.pyx";
   "*.c"; "*.cc"; "*.cpp"; "*.h"; "*.md"; "*.rst"; "*Dockerfile";
   "*Makefile"; "*.yaml"; "*.yml"].

Definition DEFAULT_EXCLUDE_PATTERNS : list string :=
  ["assets/*"; "data/*"; "images/*"; "public/*"; "static/*"; "temp/*";
   "*docs/*";
   "*venv/*";
   "*.venv/*";
   "*test*";
   "*tests/*";
   "*examples/*";
   "v1/*";
   "*dist/*";
   "*build/*";
   "*experimental/*";
   "*deprecated/*";
   "*misc/*";
   "*legacy/*";
   ".git/*"; ".github/*"; ".next/*"; ".vscode/*";
   "*obj/*";
   "*bin/*";
   "*node_modules/*";
   "*.log"].

(** The namespace [parse_args] builds when no subcommand is given. *)
Module Namespace.
Record t : Type := {
  repo : option string;
  dir : option string;
  name : option string;
  token : option string;
  output : string;
  include : option (list string);
  exclude : option (list string);
  max_size : Z;
  language : string;
  no_cache : bool;
  max_abstractions : Z;
  audience_level : string
}.
End Namespace.

(** The [shared] dictionary handed to the flow; its last six entries are
    empty when the flow starts. *)
Module Shared.
Record t : Type := {
  repo_url : option string;
  local_dir : option string;
  project_name : option string;
  github_token : option string;
  output_dir : string;
  include_patterns : list string;
  exclude_patterns : list string;
  max_file_size : Z;
  language : string;
  use_cache : bool;
  max_abstraction_num : Z;
  audience_level : string;
  files : list (string * pystr);
  abstractions : list string;
  relationships : list (string * string);
  chapter_order : list Z;
  chapters : list string;
  final_output_dir : option string
}.
End Shared.

(** [a or b] on two optional strings, and an optional string as an
    f-string shows it. *)
Definition or_else (a b : option string) : option string :=
  if truthy a then a else b.
Definition str_of (x : option string) : string :=
  match x with
  | Some s => s
  | None => "None"
  end.

(** [set(xs) if xs else defaults] *)
Definition pattern_set_or (defaults : list string) (xs : option (list string))
    : list string :=
  match xs with
  | Some (x :: rest) => nodup string_dec (x :: rest)
  | _ => defaults
  end.

Definition token_warning : string :=
  "Warning: No GitHub token provided. You might hit rate limits for public repositories.".

Section Tutorial.

(** [str.capitalize], and the [run] method of the flow that
    [create_tutorial_flow()] of the module [flow] returns, are parameters. *)
Variable capitalize : string -> string.
Variable tutorial_flow_run : Shared.t -> M unit.

(** [main()] when no subcommand is given, from the parsed arguments on. *)
Definition main_tutorial (args : Namespace.t) : M unit :=
  (github_token <-
     (if truthy (Namespace.repo args) then
        (github_token <-
           (if truthy (Namespace.token args) then ret (Namespace.token args)
            else environ_get "GITHUB_TOKEN") ;;
         (if truthy github_token then ret tt
          else emit (PrintLine token_warning)) ;;;
         ret github_token)
      else ret None) ;;
   let shared :=
     {| Shared.repo_url := Namespace.repo args;
        Shared.local_dir := Namespace.dir args;
        Shared.project_name := Namespace.name args;
        Shared.github_token := github_token;
        Shared.output_dir := Namespace.output args;
        Shared.include_patterns :=
          pattern_set_or DEFAULT_INCLUDE_PATTERNS (Namespace.include args);
        Shared.exclude_patterns :=
          pattern_set_or DEFAULT_EXCLUDE_PATTERNS (Namespace.exclude args);
        Shared.max_file_size := Namespace.max_size args;
        Shared.language := Namespace.language args;
        Shared.use_cache := negb (Namespace.no_cache args);
        Shared.max_abstraction_num := Namespace.max_abstractions args;
        Shared.audience_level := Namespace.audience_level args;
        Shared.files := [];
        Shared.abstractions := [];
        Shared.relationships := [];
        Shared.chapter_order := [];
        Shared.chapters := [];
        Shared.final_output_dir := None |} in
   emit (PrintLine ("Starting tutorial generation for: "
                    ++ str_of (or_else (Namespace.repo args) (Namespace.dir args))
                    ++ " in " ++ capitalize (Namespace.language args)
                    ++ " language")%string) ;;;
   emit (PrintLine ("LLM caching: "
                    ++ (if Namespace.no_cache args then "Disabled" else "Enabled"))%string) ;;;
   tutorial_flow_run shared)%io.

End Tutorial.

(** ** More example data *)

(** The literal [-3.0], and [float("inf")]. *)
Definition minus_three : Float64.float := S754_finite true 6755399441055744 (-51).
Definition positive_infinity : Float64.float := S754_infinity false.

(** Adapters that cannot reach their source. *)
Definition failing_local (directory : string) (inc exc : patterns) (max_file_size : Z)
    (rel : bool) : result crawl_result :=
  Raise (AdapterError "Directory does not exist").
Definition failing_github (repo_url : string) (token : option string) (max_file_size : Z)
    (rel : bool) (inc exc : patterns) : result crawl_result :=
  Raise (AdapterError "Error 404: Repository not found").

(** An adapter whose dictionary has no ["files"] key. *)
Definition keyless_local (directory : string) (inc exc : patterns) (max_file_size : Z)
    (rel : bool) : result crawl_result :=
  Ok {| crawl_files := None |}.

(** An adapter that knows one directory only. *)
Definition proj_only_local (directory : string) (inc exc : patterns) (max_file_size : Z)
    (rel : bool) : result crawl_result :=
  if String.eqb directory "proj" then Ok {| crawl_files := Some two_files |}
  else Raise (AdapterError "Directory does not exist").

(** A GitHub adapter whose dictionary has no ["files"] key. *)
Definition keyless_github (repo_url : string) (token : option string) (max_file_size : Z)
    (rel : bool) (inc exc : patterns) : result crawl_result :=
  Ok {| crawl_files := None |}.


(** A world whose environment holds a token. *)
Definition token_world : World :=
  {| environ := fun name =>
                  if String.eqb name "GITHUB_TOKEN" then Some "ghp_env" else None;
     write_error := fun _ => None;
     trace := [] |}.

(** [estimate-repo --repo URL], parsed, with or without [--token]. *)
Definition repo_args (token : option string) : Args.t :=
  {| Args.repo := Some "https://github.com/o/r"; Args.dir := None; Args.token := token;
     Args.include := None; Args.exclude := None; Args.max_size := 100000;
     Args.model := Some "gpt-5"; Args.max_context_tokens := 200000;
     Args.overhead_percent := three; Args.out := None |}.

(** No event of the list is the one looked for. *)
Ltac not_among H :=
  unfold token_warning in H; cbn in H;
  repeat (destruct H as [H|H]; [discriminate H|]); destruct H.

(** * Properties *)

(** ** The token estimator *)

Lemma math_ceil_div_4 (n : Z) : math_ceil_div n 4 = (n + 3) / 4.
Proof.
  unfold math_ceil_div.
  pose proof (Z.div_mod (- n) 4 ltac:(lia)) as H1.
  pose proof (Z.mod_pos_bound (- n) 4 ltac:(lia)) as H2.
  pose proof (Z.div_mod (n + 3) 4 ltac:(lia)) as H3.
  pose proof (Z.mod_pos_bound (n + 3) 4 ltac:(lia)) as H4.
  lia.
Qed.

Lemma math_ceil_div_multiple (k : Z) : math_ceil_div (4 * k) 4 = k.
Proof.
  unfold math_ceil_div.
  replace (- (4 * k)) with ((- k) * 4) by lia.
  rewrite Z.div_mul by lia. lia.
Qed.

Lemma len_nonneg {A : Type} (l : list A) : 0 <= len l.
Proof. unfold len. lia. Qed.

Lemma len_cons {A : Type} (a : A) (l : list A) : len (a :: l) = 1 + len l.
Proof. unfold len. cbn [List.length]. lia. Qed.

Lemma len_app {A : Type} (l1 l2 : list A) : len (l1 ++ l2) = len l1 + len l2.
Proof. unfold len. rewrite List.length_app. lia. Qed.

(** The estimate is the ceiling of a quarter of the number of code points. *)
Lemma heuristic_counts_characters (text : pystr) :
  _heuristic_token_count text = (len text + 3) / 4.
Proof.
  destruct text as [|c s].
  - reflexivity.
  - unfold _heuristic_token_count.
    rewrite math_ceil_div_4.
    pose proof (len_nonneg (c :: s)) as Hlen.
    assert (0 <= (len (c :: s) + 3) / 4) by (apply Z.div_pos; lia).
    lia.
Qed.

Lemma or_empty_len (text : option pystr) :
  len (or_empty text) = match text with Some s => len s | None => 0 end.
Proof. destruct text as [[|c s]|]; reflexivity. Qed.

(** So is the estimate of an optional text, [None] counting for no
    character. *)
Lemma count_tokens_characters (text : option pystr) (model : option string) :
  count_tokens text model =
  (match text with Some s => len s | None => 0 end + 3) / 4.
Proof.
  unfold count_tokens. rewrite heuristic_counts_characters, or_empty_len.
  reflexivity.
Qed.

(** ** UTF-8 sizes *)

Lemma utf8_codepoint_width (c : codepoint) (bs : list Byte.byte) :
  utf8_encode_codepoint c = Ok bs ->
  (if is_ascii c then len bs = 1 else 2 <= len bs <= 4).
Proof.
  unfold utf8_encode_codepoint, is_ascii.
  destruct (c <? 0x80)%N.
  - intros H; injection H as <-. reflexivity.
  - destruct (c <? 0x800)%N.
    + intros H; injection H as <-. cbv. split; discriminate.
    + destruct (c <? 0x10000)%N.
      * destruct (is_surrogate c); [discriminate|].
        intros H; injection H as <-. cbv. split; discriminate.
      * intros H; injection H as <-. cbv. split; discriminate.
Qed.

(** Only surrogates are refused. *)
Lemma utf8_codepoint_ok (c : codepoint) :
  is_surrogate c = false -> exists bs, utf8_encode_codepoint c = Ok bs.
Proof.
  intros Hs. unfold utf8_encode_codepoint. rewrite Hs.
  repeat match goal with |- context [if ?b then _ else _] => destruct b end;
    eexists; reflexivity.
Qed.

Lemma utf8_codepoint_surrogate (c : codepoint) :
  is_surrogate c = true -> utf8_encode_codepoint c = Raise UnicodeEncodeError.
Proof.
  intros Hs. unfold utf8_encode_codepoint. rewrite Hs.
  unfold is_surrogate in Hs. apply andb_prop in Hs as [H1 H2].
  apply N.leb_le in H1, H2.
  destruct (N.ltb_spec c 0x80); [lia|].
  destruct (N.ltb_spec c 0x800); [lia|].
  destruct (N.ltb_spec c 0x10000); [reflexivity|lia].
Qed.

(** A string is encoded exactly when it holds no surrogate. *)
Lemma utf8_encode_ok (s : pystr) :
  encodable s = true -> exists bs, utf8_encode s = Ok bs.
Proof.
  induction s as [|c s IH]; cbn [encodable forallb utf8_encode].
  - eexists; reflexivity.
  - intros H. apply andb_prop in H as [Hc Hs].
    apply negb_true_iff in Hc.
    destruct (utf8_codepoint_ok c Hc) as [bs ->].
    destruct (IH Hs) as [bs' ->].
    eexists; reflexivity.
Qed.

Lemma utf8_encode_raises (s : pystr) :
  encodable s = false -> utf8_encode s = Raise UnicodeEncodeError.
Proof.
  induction s as [|c s IH]; cbn [encodable forallb utf8_encode].
  - discriminate.
  - intros H. apply andb_false_iff in H as [Hc|Hs].
    + apply negb_false_iff in Hc. rewrite (utf8_codepoint_surrogate c Hc).
      reflexivity.
    + destruct (utf8_encode_codepoint c) as [bs|e] eqn:E.
      * rewrite (IH Hs). reflexivity.
      * destruct (is_surrogate c) eqn:Hc.
        -- rewrite (utf8_codepoint_surrogate c Hc) in E. exact (eq_sym E).
        -- destruct (utf8_codepoint_ok c Hc) as [bs E']. congruence.
Qed.

(** The encoding is never shorter than the string, as long as it when the
    string is ASCII, and longer as soon as one character is not. *)
Lemma utf8_encode_size (s : pystr) (bs : list Byte.byte) :
  utf8_encode s = Ok bs ->
  len s <= len bs <= 4 * len s /\
  (forallb is_ascii s = true -> len bs = len s) /\
  (forallb is_ascii s = false -> len s < len bs).
Proof.
  revert bs. induction s as [|c s IH]; intros bs; cbn [utf8_encode forallb].
  - intros H; injection H as <-. cbn. repeat split; try lia; discriminate.
  - destruct (utf8_encode_codepoint c) as [b1|] eqn:E1; [|discriminate].
    destruct (utf8_encode s) as [b2|] eqn:E2; [|discriminate].
    cbn [rbind]. intros H; injection H as <-.
    rewrite len_app, len_cons.
    destruct (IH b2 eq_refl) as (Hb & Ha & Hn).
    pose proof (utf8_codepoint_width c b1 E1) as Hw.
    destruct (is_ascii c); cbn [andb].
    + repeat split; try lia.
      * intros Hall. specialize (Ha Hall). lia.
      * intros Hall. specialize (Hn Hall). lia.
    + repeat split; try lia; discriminate.
Qed.

(** ** The scoring loop *)

Lemma encoded_size_ok (content : option pystr) :
  item_encodable ("", content) = true ->
  encoded_size content = Ok (utf8_size content).
Proof.
  unfold item_encodable, utf8_size. destruct content as [s|]; cbn [snd encoded_size].
  - intros H. destruct (utf8_encode_ok s H) as [bs ->]. reflexivity.
  - reflexivity.
Qed.

Lemma encoded_size_raises (content : option pystr) :
  item_encodable ("", content) = false ->
  encoded_size content = Raise UnicodeEncodeError.
Proof.
  unfold item_encodable. destruct content as [s|]; cbn [snd encoded_size].
  - intros H. rewrite (utf8_encode_raises s H). reflexivity.
  - discriminate.
Qed.

(** The loop appends one entry per file and adds up the estimates, unless
    a content cannot be encoded. *)
Lemma score_files_ok (model : option string) (items : files_dict) :
  forallb item_encodable items = true ->
  forall per_file sum,
    score_files model items per_file sum =
    Ok (per_file ++ map (entry_of model) items, sum + total_of model items).
Proof.
  induction items as [|[file_path content] rest IH]; intros Hall per_file sum.
  - cbn. rewrite app_nil_r, Z.add_0_r. reflexivity.
  - cbn [forallb] in Hall. apply andb_prop in Hall as [Hc Hrest].
    cbn [score_files]. rewrite (encoded_size_ok content Hc). cbn [rbind].
    rewrite (IH Hrest). unfold total_of. cbn [map fold_right snd].
    rewrite <- app_assoc. f_equal. f_equal. lia.
Qed.

Lemma score_files_raises (model : option string) (items : files_dict) :
  forallb item_encodable items = false ->
  forall per_file sum,
    score_files model items per_file sum = Raise UnicodeEncodeError.
Proof.
  induction items as [|[file_path content] rest IH]; intros Hall per_file sum.
  - discriminate.
  - cbn [forallb] in Hall. cbn [score_files].
    destruct (item_encodable (file_path, content)) eqn:Hc.
    + rewrite (encoded_size_ok content Hc). cbn [rbind].
      apply IH. exact Hall.
    + rewrite (encoded_size_raises content Hc). reflexivity.
Qed.

(** [estimate_files] in closed form. *)
Lemma estimate_files_eq (files : files_dict) (model : option string)
    (p : Float64.float) :
  estimate_files files model p =
  if forallb item_encodable files then
    match apply_overhead (total_of model files) p with
    | Ok overhead =>
        Ok {| model := model;
              max_context_tokens := None;
              overhead_percent := p;
              sum_file_tokens := total_of model files;
              overhead_tokens := overhead;
              total_tokens := total_of model files + overhead;
              files := map (entry_of model) files |}
    | Raise e => Raise e
    end
  else Raise UnicodeEncodeError.
Proof.
  unfold estimate_files.
  destruct (forallb item_encodable files) eqn:Hall.
  - rewrite (score_files_ok model files Hall). cbn [rbind fst snd app Z.add].
    destruct (apply_overhead (total_of model files) p); reflexivity.
  - rewrite (score_files_raises model files Hall). reflexivity.
Qed.

Lemma total_of_nonneg (model : option string) (items : files_dict) :
  0 <= total_of model items.
Proof.
  unfold total_of. induction items as [|item rest IH]; cbn [map fold_right].
  - lia.
  - rewrite count_tokens_characters.
    assert (0 <= (match snd item with Some s => len s | None => 0 end + 3) / 4).
    { apply Z.div_pos; [|lia]. destruct (snd item); [pose proof (len_nonneg p)|]; lia. }
    lia.
Qed.

(** The sum and the encodability of a mapping do not depend on the order
    of its entries. *)
Lemma total_of_permutation (model : option string) (items items' : files_dict) :
  Permutation items items' -> total_of model items = total_of model items'.
Proof.
  unfold total_of. induction 1; cbn [map fold_right]; lia.
Qed.

Lemma item_encodable_permutation (items items' : files_dict) :
  Permutation items items' ->
  forallb item_encodable items = forallb item_encodable items'.
Proof.
  induction 1; cbn [forallb].
  - reflexivity.
  - f_equal. assumption.
  - rewrite !andb_assoc. f_equal. apply andb_comm.
  - congruence.
Qed.

(** ** Traces *)

Lemma skipn_length_app {A : Type} (l l' : list A) :
  skipn (List.length l) (l ++ l') = l'.
Proof. induction l as [|a l IH]; [reflexivity|exact IH]. Qed.

(** What one or two logged events add to the trace. *)
Lemma new_events_refl (w : World) : new_events w w = [].
Proof.
  unfold new_events. rewrite <- (app_nil_r (trace w)) at 2.
  apply skipn_length_app.
Qed.

Lemma new_events_log (w : World) (ev : io_event) :
  new_events w (log ev w) = [ev].
Proof. unfold new_events, log. cbn [trace]. apply skipn_length_app. Qed.

Lemma new_events_log2 (w : World) (ev1 ev2 : io_event) :
  new_events w (log ev2 (log ev1 w)) = [ev1; ev2].
Proof.
  unfold new_events, log. cbn [trace]. rewrite <- app_assoc.
  apply skipn_length_app.
Qed.

(** ** The report and the exit code *)

(** What [report_and_exit] does, case by case: it prints the summary, then
    either does nothing more, writes the file, or prints the warning, and
    returns 0 or 2. *)
Lemma report_and_exit_eq (result : report) (args : Args.t) (w : World) :
  let limit := Args.max_context_tokens args in
  let within := total_tokens result <=? limit in
  let stamped :=
    {| model := model result;
       max_context_tokens := Some limit;
       overhead_percent := overhead_percent result;
       sum_file_tokens := sum_file_tokens result;
       overhead_tokens := overhead_tokens result;
       total_tokens := total_tokens result;
       files := files result |} in
  let doc :=
    {| printed_model := model result;
       printed_max_context_tokens := Some limit;
       printed_overhead_percent := overhead_percent result;
       printed_sum_file_tokens := sum_file_tokens result;
       printed_overhead_tokens := overhead_tokens result;
       printed_total_tokens := total_tokens result;
       printed_within_limit := within;
       file_count := len (files result) |} in
  let out := text_of (Args.out args) in
  report_and_exit result args w =
  (Ok (if within then 0 else 2),
   if truthy (Args.out args) then
     match write_error w out with
     | None =>
         log (FileWritten out {| payload_result := stamped; within_limit := within |})
           (log (PrintJson doc) w)
     | Some e =>
         log (PrintLine ("Warning: Failed to write output to " ++ out ++ ": " ++ e)%string)
           (log (PrintJson doc) w)
     end
   else log (PrintJson doc) w).
Proof.
  cbv zeta. unfold report_and_exit, bind, emit, ret. cbn [total_tokens files model
    max_context_tokens overhead_percent sum_file_tokens overhead_tokens].
  destruct (truthy (Args.out args)).
  - cbn [log write_error].
    destruct (write_error w (text_of (Args.out args))); reflexivity.
  - reflexivity.
Qed.

(** ** Binary digits *)

Lemma digits2_pos_bounds (p : positive) :
  2 ^ (Zpos (digits2_pos p) - 1) <= Zpos p < 2 ^ Zpos (digits2_pos p).
Proof.
  induction p as [p IH|p IH|]; cbn [digits2_pos].
  - rewrite Pos2Z.inj_succ.
    replace (Z.succ (Zpos (digits2_pos p)) - 1) with (1 + (Zpos (digits2_pos p) - 1)) by lia.
    rewrite Z.pow_succ_r by lia. rewrite Z.pow_add_r by lia.
    change (2 ^ 1) with 2. lia.
  - rewrite Pos2Z.inj_succ.
    replace (Z.succ (Zpos (digits2_pos p)) - 1) with (1 + (Zpos (digits2_pos p) - 1)) by lia.
    rewrite Z.pow_succ_r by lia. rewrite Z.pow_add_r by lia.
    change (2 ^ 1) with 2. lia.
  - cbn. lia.
Qed.

Lemma Zdigits2_nonneg (m : Z) : 0 <= Zdigits2 m.
Proof. destruct m; cbn; lia. Qed.

(** A positive integer of [d] binary digits lies between [2 ^ (d - 1)]
    and [2 ^ d]. *)
Lemma Zdigits2_bounds (m : Z) :
  0 < m -> 2 ^ (Zdigits2 m - 1) <= m < 2 ^ Zdigits2 m.
Proof. destruct m; try lia. intros _. apply digits2_pos_bounds. Qed.

Lemma Zdigits2_le (m k : Z) : 0 <= m -> 0 <= k -> m < 2 ^ k -> Zdigits2 m <= k.
Proof.
  intros Hm Hk Hlt. destruct (Z.eq_dec m 0) as [->|Hn]; [cbn; lia|].
  destruct (Zdigits2_bounds m ltac:(lia)) as [Hlo _].
  destruct (Z_le_gt_dec (Zdigits2 m) k) as [|Hgt]; [assumption|exfalso].
  assert (2 ^ k <= 2 ^ (Zdigits2 m - 1)) by (apply Z.pow_le_mono_r; lia).
  lia.
Qed.

Lemma Zdigits2_ge (m k : Z) : 0 <= k -> 2 ^ k <= m -> k + 1 <= Zdigits2 m.
Proof.
  intros Hk Hle.
  assert (0 < 2 ^ k) by (apply Z.pow_pos_nonneg; lia).
  destruct (Zdigits2_bounds m ltac:(lia)) as [_ Hhi].
  destruct (Z_le_gt_dec (k + 1) (Zdigits2 m)) as [|Hgt]; [assumption|exfalso].
  assert (2 ^ Zdigits2 m <= 2 ^ k).
  { apply Z.pow_le_mono_r; [lia|]. lia. }
  lia.
Qed.

(** ** Powers of two *)

Lemma bpow_pos (e : Z) : (0 < bpow e)%Q.
Proof. apply Qpower_0_lt. reflexivity. Qed.

Lemma bpow_add (a b : Z) : (bpow (a + b) == bpow a * bpow b)%Q.
Proof. apply Qpower_plus. discriminate. Qed.

Lemma bpow_le (a b : Z) : a <= b -> (bpow a <= bpow b)%Q.
Proof. intros H. apply Qpower_le_compat_l; [assumption|discriminate]. Qed.

Lemma bpow_Z (e : Z) : 0 <= e -> (bpow e == inject_Z (2 ^ e))%Q.
Proof. intros H. unfold bpow. rewrite Zpower_Qpower by assumption. reflexivity. Qed.

Lemma bpow_0 : (bpow 0 == 1)%Q.
Proof. reflexivity. Qed.

Lemma bpow_succ (e : Z) : (bpow (e + 1) == 2 * bpow e)%Q.
Proof. rewrite bpow_add. change (bpow 1) with 2%Q. ring. Qed.

Lemma bpow_pred (e : Z) : (bpow (e - 1) == bpow e / 2)%Q.
Proof.
  assert (H := bpow_succ (e - 1)). replace (e - 1 + 1) with e in H by lia.
  rewrite H. field.
Qed.

(** ** Locations *)

Lemma located_comp (t t' : Q) (m : Z) (l : location) :
  (t == t')%Q -> located t m l -> located t' m l.
Proof.
  intros E H. destruct H; constructor; rewrite <- E; assumption.
Qed.

Lemma located_bounds (t : Q) (m : Z) (l : location) :
  located t m l -> (inject_Z m <= t /\ t < inject_Z m + 1)%Q.
Proof. intros H. destruct H; split; lra. Qed.

Lemma between_integers (k m : Z) :
  (inject_Z m < inject_Z k)%Q -> (inject_Z k < inject_Z m + 1)%Q -> False.
Proof.
  intros Hlo Hhi.
  change 1%Q with (inject_Z 1) in Hhi. rewrite <- inject_Z_plus in Hhi.
  rewrite <- Zlt_Qlt in Hlo, Hhi. lia.
Qed.

(** An integer is located on itself. *)
Lemma located_integer (k m : Z) (l : location) :
  located (inject_Z k) m l -> m = k /\ l = loc_Exact.
Proof.
  intros H. inversion H as [He|Hlo Hhi|He|Hlo Hhi]; subst.
  - apply (proj1 (inject_Z_injective k m)) in He. split; congruence.
  - exfalso. apply (between_integers k m); lra.
  - exfalso. apply (between_integers k m); lra.
  - exfalso. apply (between_integers k m); lra.
Qed.

Lemma inject_Z_xO (p : positive) : (inject_Z (Zpos p~0) == 2 * inject_Z (Zpos p))%Q.
Proof. rewrite Pos2Z.inj_xO, inject_Z_mult. reflexivity. Qed.

Lemma inject_Z_xI (p : positive) : (inject_Z (Zpos p~1) == 2 * inject_Z (Zpos p) + 1)%Q.
Proof. rewrite Pos2Z.inj_xI, inject_Z_plus, inject_Z_mult. reflexivity. Qed.


(** Shifting the mantissa right by one bit halves the located value. *)
Lemma shr_1_located (t : Q) (mrs : shr_record) :
  located_record t mrs -> located_record (t * (1 # 2)) (shr_1 mrs).
Proof.
  destruct mrs as [m r s]. unfold located_record. cbn [shr_m].
  intros [Hm H].
  destruct m as [|p|p]; [| |lia].
  - destruct r, s; cbn in *; (split; [lia|]); inversion H; subst;
      constructor; change (inject_Z 0) with 0%Q in *; lra.
  - destruct p as [p|p|]; destruct r, s; cbn in *; (split; [lia|]);
      inversion H; subst; constructor;
      rewrite ?inject_Z_xI, ?inject_Z_xO in *;
      change (inject_Z 1) with 1%Q in *; change (inject_Z 0) with 0%Q in *; lra.
Qed.

Lemma bpow_neg_xO (n : positive) :
  (bpow (- Zpos n~0) == bpow (- Zpos n) * bpow (- Zpos n))%Q.
Proof. rewrite <- bpow_add. f_equiv. lia. Qed.

Lemma bpow_neg_xI (n : positive) :
  (bpow (- Zpos n~1) == (1 # 2) * (bpow (- Zpos n) * bpow (- Zpos n)))%Q.
Proof.
  rewrite <- bpow_add. change (1 # 2)%Q with (bpow (- 1)). rewrite <- bpow_add.
  f_equiv. lia.
Qed.

(** Shifting by [n] bits divides it by [2 ^ n]. *)
Lemma iter_shr_1_located (n : positive) :
  forall (t : Q) (mrs : shr_record),
    located_record t mrs ->
    located_record (t * bpow (- Zpos n)) (iter_pos shr_1 n mrs).
Proof.
  induction n as [n IH|n IH|]; intros t mrs H; cbn [iter_pos].
  - apply shr_1_located in H. apply IH in H. apply IH in H.
    destruct H as [H0 H]. split; [assumption|].
    eapply located_comp; [|exact H]. rewrite bpow_neg_xI. ring.
  - apply IH in H. apply IH in H.
    destruct H as [H0 H]. split; [assumption|].
    eapply located_comp; [|exact H]. rewrite bpow_neg_xO. ring.
  - apply shr_1_located in H. exact H.
Qed.

(** ** Rounding to nearest *)

Lemma fexp64_eq (e : Z) : fexp64 e = Z.max (e - 53) (-1074).
Proof. reflexivity. Qed.

(** The value of a positive float is its mantissa times [2 ^ e]. *)
Lemma to_Q_finite (m : positive) (e : Z) :
  (Float64.to_Q (S754_finite false m e) == inject_Z (Zpos m) * bpow e)%Q.
Proof.
  unfold Float64.to_Q. destruct (Z.leb_spec 0 e) as [He|He].
  - rewrite Z.shiftl_mul_pow2 by assumption. rewrite inject_Z_mult.
    rewrite bpow_Z by assumption. reflexivity.
  - replace e with (- (- e)) at 2 by lia. unfold bpow. rewrite Qpower_opp.
    fold (bpow (- e)). rewrite bpow_Z by lia.
    assert (Hpos : 0 < 2 ^ (- e)) by (apply Z.pow_pos_nonneg; lia).
    rewrite (Qmake_Qdiv (Zpos m) (Z.to_pos (2 ^ (- e)))).
    rewrite Z2Pos.id by assumption. reflexivity.
Qed.

(** Rounding to nearest, ties to even, moves the mantissa by at most a
    half. *)
Lemma round_nearest_even_located (t : Q) (m : Z) (l : location) :
  located t m l ->
  m <= round_nearest_even m l <= m + 1 /\
  (inject_Z (round_nearest_even m l) - (1 # 2) <= t
   <= inject_Z (round_nearest_even m l) + (1 # 2))%Q /\
  (l = loc_Exact -> round_nearest_even m l = m).
Proof.
  intros H. destruct H; cbn [round_nearest_even].
  - split; [lia|]. split; [lra|reflexivity].
  - split; [lia|]. split; [lra|discriminate].
  - destruct (Z.even m); (split; [lia|]); (split; [|discriminate]);
      rewrite ?inject_Z_plus; change (inject_Z 1) with 1%Q; lra.
  - split; [lia|]. split; [|discriminate].
    rewrite inject_Z_plus; change (inject_Z 1) with 1%Q; lra.
Qed.

Lemma record_of_loc_located (t : Q) (m : Z) (l : location) :
  0 <= m -> located t m l -> located_record t (shr_record_of_loc m l).
Proof.
  intros Hm H. split; destruct l as [|[| |]]; cbn; assumption.
Qed.

(** The first shift of [binary_round_aux]. *)
Lemma shr_fexp_located (mx ex : Z) (lx : location) (t : Q) :
  0 <= mx -> located t mx lx ->
  let e1 := Z.max ex (fexp64 (Zdigits2 mx + ex)) in
  snd (shr_fexp Float64.prec Float64.emax mx ex lx) = e1 /\
  located_record (t * bpow (ex - e1))
    (fst (shr_fexp Float64.prec Float64.emax mx ex lx)).
Proof.
  intros Hm H e1. unfold shr_fexp, shr.
  pose proof (record_of_loc_located t mx lx Hm H) as Hrec.
  destruct (fexp64 (Zdigits2 mx + ex) - ex) as [|n|n] eqn:En; cbn [fst snd].
  - assert (e1 = ex) as -> by (unfold e1; lia).
    split; [reflexivity|]. destruct Hrec as [H0 Hl]. split; [assumption|].
    eapply located_comp; [|exact Hl]. rewrite Z.sub_diag, bpow_0. ring.
  - assert (e1 = ex + Zpos n) as -> by (unfold e1; lia).
    split; [reflexivity|].
    replace (ex - (ex + Zpos n)) with (- Zpos n) by lia.
    apply iter_shr_1_located. exact Hrec.
  - assert (e1 = ex) as -> by (unfold e1; lia).
    split; [reflexivity|]. destruct Hrec as [H0 Hl]. split; [assumption|].
    eapply located_comp; [|exact Hl]. rewrite Z.sub_diag, bpow_0. ring.
Qed.

(** The second shift of [binary_round_aux], after rounding: it changes the
    pair only when the mantissa has grown to [2 ^ 53]. *)
Lemma shr_fexp_after_rounding (m1 e1 : Z) :
  0 <= m1 <= 2 ^ 53 -> -1074 <= e1 ->
  let r := shr_fexp Float64.prec Float64.emax m1 e1 loc_Exact in
  0 <= shr_m (fst r) /\ e1 <= snd r <= e1 + 1 /\
  (inject_Z (shr_m (fst r)) * bpow (snd r) == inject_Z m1 * bpow e1)%Q.
Proof.
  intros Hm He. cbv zeta. unfold shr_fexp, shr.
  destruct (Z.eq_dec m1 (2 ^ 53)) as [->|Hne].
  - change (Zdigits2 (2 ^ 53)) with 54.
    replace (fexp64 (54 + e1) - e1) with 1 by (rewrite fexp64_eq; lia).
    cbn [fst snd shr_record_of_loc iter_pos shr_1 shr_m Z.pow Z.pow_pos Pos.iter Z.mul Pos.mul].
    clear Hm. split; [discriminate|]. split; [lia|].
    rewrite bpow_succ. unfold inject_Z. ring.
  - assert (Hd : Zdigits2 m1 <= 53) by (apply Zdigits2_le; lia).
    assert (H0 : 0 <= m1) by lia. clear Hm Hne.
    destruct (fexp64 (Zdigits2 m1 + e1) - e1) as [|n|n] eqn:En; cbn [fst snd].
    + split; [cbn; assumption|]. split; [lia|reflexivity].
    + exfalso. rewrite fexp64_eq in En. lia.
    + split; [cbn; assumption|]. split; [lia|reflexivity].
Qed.

Lemma succ_le_pow_digits (mx : Z) : 0 <= mx -> mx + 1 <= 2 ^ Zdigits2 mx.
Proof.
  intros H. destruct (Z.eq_dec mx 0) as [->|Hn]; [cbn; lia|].
  pose proof (Zdigits2_bounds mx ltac:(lia)). lia.
Qed.

Lemma Qmult_bounds (lo hi t b : Q) :
  (0 < b -> lo <= t <= hi -> lo * b <= t * b <= hi * b)%Q.
Proof. intros Hb [H1 H2]. split; apply Qmult_le_compat_r; lra. Qed.

Lemma half_bounds (m B T : Q) :
  ((m - (1 # 2)) * B <= T <= (m + (1 # 2)) * B ->
   T - B / 2 <= m * B <= T + B / 2)%Q.
Proof.
  intros H.
  assert (E1 : ((m - (1 # 2)) * B == m * B - B / 2)%Q) by field.
  assert (E2 : ((m + (1 # 2)) * B == m * B + B / 2)%Q) by field.
  rewrite E1, E2 in H. lra.
Qed.

(** Rounding to nearest: the result of [binary_round_aux] on a mantissa,
    an exponent and a location that describe [t * 2 ^ ex] is within half a
    unit in the last place of it. *)
Lemma binary_round_aux_error (mx ex : Z) (lx : location) (t : Q) :
  0 <= mx -> located t mx lx ->
  let e1 := Z.max ex (fexp64 (Zdigits2 mx + ex)) in
  e1 <= 970 ->
  let R := binary_round_aux Float64.prec Float64.emax false mx ex lx in
  Float64.is_nonneg_finite R = true /\
  (t * bpow ex - bpow (e1 - 1) <= Float64.to_Q R <= t * bpow ex + bpow (e1 - 1))%Q /\
  (forall k : Z, t * bpow (ex - e1) == inject_Z k ->
                 Float64.to_Q R == t * bpow ex)%Q.
Proof.
  intros Hmx Hloc e1 He1 R.
  assert (Hemin : -1074 <= e1) by (unfold e1; rewrite fexp64_eq; lia).
  assert (Hfexp : Zdigits2 mx + ex - 53 <= e1) by (unfold e1; rewrite fexp64_eq; lia).
  destruct (shr_fexp_located mx ex lx t Hmx Hloc) as [Hsnd [Hm0 Hrec]].
  fold e1 in Hsnd, Hrec.
  unfold R, binary_round_aux.
  destruct (shr_fexp Float64.prec Float64.emax mx ex lx) as [mrs' e'] eqn:E1.
  cbn [fst snd] in Hsnd, Hm0, Hrec. subst e'.
  set (m0 := shr_m mrs') in *. set (l0 := loc_of_shr_record mrs') in *.
  destruct (round_nearest_even_located _ m0 l0 Hrec) as (Hm1 & Hhalf & Hexact).
  set (m1 := round_nearest_even m0 l0) in *.
  (* the shifted mantissa is below 2^53 *)
  assert (Hlt : m0 < 2 ^ 53).
  { apply located_bounds in Hrec. apply located_bounds in Hloc.
    pose proof (succ_le_pow_digits mx Hmx) as Hsucc.
    pose proof (Zdigits2_nonneg mx) as Hd0.
    assert (Hq : (inject_Z (mx + 1) <= bpow (Zdigits2 mx))%Q).
    { rewrite bpow_Z by assumption. rewrite <- Zle_Qle. exact Hsucc. }
    rewrite inject_Z_plus in Hq. change (inject_Z 1) with 1%Q in Hq.
    pose proof (bpow_pos (ex - e1)) as Hb.
    assert (Hle : (bpow (Zdigits2 mx) * bpow (ex - e1) <= bpow 53)%Q).
    { rewrite <- bpow_add. apply bpow_le. lia. }
    assert (Hlt' : (t * bpow (ex - e1) < bpow (Zdigits2 mx) * bpow (ex - e1))%Q).
    { apply Qmult_lt_compat_r; [assumption|]. lra. }
    rewrite (bpow_Z 53) in Hle by lia.
    rewrite Zlt_Qlt. lra. }
  destruct (shr_fexp_after_rounding m1 e1 ltac:(lia) Hemin) as (H2pos & H2e & H2v).
  destruct (shr_fexp Float64.prec Float64.emax m1 e1 loc_Exact) as [mrs'' e''] eqn:E2.
  cbn [fst snd] in H2pos, H2e, H2v.
  (* the value before the second shift *)
  pose proof (bpow_pos e1) as HB.
  assert (HT : (t * bpow (ex - e1) * bpow e1 == t * bpow ex)%Q).
  { rewrite <- Qmult_assoc, <- bpow_add. replace (ex - e1 + e1) with ex by lia.
    reflexivity. }
  assert (Hhalf' := Qmult_bounds _ _ _ _ HB Hhalf).
  rewrite HT in Hhalf'.
  assert (Hpred := bpow_pred e1).
  assert (Hval : (t * bpow ex - bpow (e1 - 1) <= inject_Z m1 * bpow e1
                  <= t * bpow ex + bpow (e1 - 1))%Q).
  { rewrite Hpred. apply half_bounds. exact Hhalf'. }
  assert (Hex : forall k : Z, (t * bpow (ex - e1) == inject_Z k)%Q ->
                (inject_Z m1 * bpow e1 == t * bpow ex)%Q).
  { intros k Hk.
    destruct (located_integer k m0 l0 (located_comp _ _ _ _ Hk Hrec)) as [Hm Hl].
    rewrite (Hexact Hl), Hm, <- Hk. exact HT. }
  destruct (shr_m mrs'') as [|m2|m2] eqn:Em2; [| |lia].
  - cbn [Float64.is_nonneg_finite Float64.to_Q]. split; [reflexivity|].
    change (inject_Z 0) with 0%Q in H2v.
    assert (Hz : (inject_Z m1 * bpow e1 == 0)%Q) by (rewrite <- H2v; ring).
    split; [lra|]. intros k Hk. rewrite <- (Hex k Hk). lra.
  - replace (e'' <=? Float64.emax - Float64.prec) with true
      by (symmetry; apply Z.leb_le; unfold Float64.emax, Float64.prec; lia).
    split; [reflexivity|]. rewrite to_Q_finite, H2v.
    split; [exact Hval|]. intros k Hk. rewrite to_Q_finite, H2v. exact (Hex k Hk).
Qed.


(** Half a unit in the last place of a value is at most [2 ^ -53] times
    the value, or [2 ^ -1075]. *)
Lemma half_ulp_le (mx ex : Z) (t : Q) :
  0 <= mx -> (inject_Z mx <= t)%Q ->
  ex <= fexp64 (Zdigits2 mx + ex) ->
  (bpow (fexp64 (Zdigits2 mx + ex) - 1)
   <= t * bpow ex * bpow (-53) + bpow (-1075))%Q.
Proof.
  intros Hmx Hlo Hshift.
  pose proof (bpow_pos ex) as Hbex.
  pose proof (bpow_pos (-53)) as Hu. pose proof (bpow_pos (-1075)) as Heta.
  assert (Hmx' : (0 <= inject_Z mx)%Q) by (rewrite <- (Zle_Qle 0); exact Hmx).
  assert (Hv : (inject_Z mx * bpow ex <= t * bpow ex)%Q)
    by (apply Qmult_le_compat_r; lra).
  assert (Hvu : (0 <= t * bpow ex * bpow (-53))%Q).
  { apply Qmult_le_0_compat; [apply Qmult_le_0_compat|]; lra. }
  set (e1 := fexp64 (Zdigits2 mx + ex)) in *.
  assert (He1 : e1 = Z.max (Zdigits2 mx + ex - 53) (-1074)) by apply fexp64_eq.
  destruct (Z.eq_dec e1 (-1074)) as [->|Hne].
  - change (-1074 - 1) with (-1075). lra.
  - assert (Hd : e1 = Zdigits2 mx + ex - 53) by lia.
    assert (Hpos : 0 < mx).
    { destruct (Z.eq_dec mx 0) as [Hz|]; [|lia].
      rewrite Hz in Hd. cbn [Zdigits2] in Hd. lia. }
    pose proof (Zdigits2_bounds mx Hpos) as [Hlow _].
    assert (Hq : (bpow (Zdigits2 mx - 1) <= inject_Z mx)%Q).
    { rewrite bpow_Z by lia. rewrite <- Zle_Qle. exact Hlow. }
    assert (E : (bpow (e1 - 1) == bpow (Zdigits2 mx - 1) * bpow ex * bpow (-53))%Q).
    { rewrite <- !bpow_add. f_equiv. lia. }
    rewrite E.
    assert ((bpow (Zdigits2 mx - 1) * bpow ex * bpow (-53)
             <= t * bpow ex * bpow (-53))%Q).
    { apply Qmult_le_compat_r; [|lra].
      apply Qle_trans with (inject_Z mx * bpow ex)%Q; [|exact Hv].
      apply Qmult_le_compat_r; lra. }
    lra.
Qed.

(** The bound relative to the value, when the mantissa is exact or long
    enough to be shifted. *)
Lemma binary_round_aux_relative (mx ex : Z) (lx : location) (t : Q) :
  0 <= mx -> located t mx lx ->
  lx = loc_Exact \/ ex <= fexp64 (Zdigits2 mx + ex) ->
  Z.max ex (fexp64 (Zdigits2 mx + ex)) <= 970 ->
  let R := binary_round_aux Float64.prec Float64.emax false mx ex lx in
  Float64.is_nonneg_finite R = true /\
  within_rounding (t * bpow ex) (Float64.to_Q R).
Proof.
  intros Hmx Hloc Hcase He1 R.
  destruct (binary_round_aux_error mx ex lx t Hmx Hloc He1) as (Hfin & Herr & Hex).
  fold R in Hfin, Herr, Hex. split; [exact Hfin|].
  unfold within_rounding.
  pose proof (located_bounds _ _ _ Hloc) as [Hlo _].
  pose proof (bpow_pos ex) as Hbex.
  pose proof (bpow_pos (-53)) as Hu. pose proof (bpow_pos (-1075)) as Heta.
  assert (Hmx' : (0 <= inject_Z mx)%Q) by (rewrite <- (Zle_Qle 0); exact Hmx).
  assert (Hvu : (0 <= t * bpow ex * bpow (-53))%Q).
  { apply Qmult_le_0_compat; [apply Qmult_le_0_compat|]; lra. }
  destruct (Z_le_gt_dec ex (fexp64 (Zdigits2 mx + ex))) as [Hshift|Hnone].
  - (* the mantissa is shifted to the exponent of the format *)
    pose proof (half_ulp_le mx ex t Hmx Hlo Hshift) as Hulp.
    rewrite Z.max_r in Herr by assumption. lra.
  - (* the mantissa is short and exact *)
    destruct Hcase as [Hl|Hge]; [|lia].
    rewrite (Hex mx); [lra|].
    subst lx. inversion Hloc as [Ht| | |].
    rewrite Z.max_l, Z.sub_diag, bpow_0, Ht by lia. ring.
Qed.

Lemma bpow_lt_inv (a b : Z) : (bpow a < bpow b)%Q -> a < b.
Proof.
  intros H. destruct (Z_lt_ge_dec a b) as [|Hge]; [assumption|exfalso].
  pose proof (bpow_le b a ltac:(lia)). lra.
Qed.

(** A value below [2 ^ 971] is rounded at an exponent of at most 970. *)
Lemma exponent_guard (m e : Z) :
  0 < m -> (inject_Z m * bpow e < bpow 971)%Q ->
  Z.max e (fexp64 (Zdigits2 m + e)) <= 970.
Proof.
  intros Hm Hv.
  pose proof (Zdigits2_bounds m Hm) as [Hlow _].
  pose proof (Zdigits2_nonneg m) as Hd0.
  assert (Hd1 : 1 <= Zdigits2 m) by (destruct m; cbn; lia).
  assert (Hq : (bpow (Zdigits2 m - 1) <= inject_Z m)%Q).
  { rewrite bpow_Z by lia. rewrite <- Zle_Qle. exact Hlow. }
  pose proof (bpow_pos e) as Hbe.
  assert (Hle : (bpow (Zdigits2 m - 1 + e) <= inject_Z m * bpow e)%Q).
  { rewrite bpow_add. apply Qmult_le_compat_r; lra. }
  assert (Hlt : Zdigits2 m - 1 + e < 971) by (apply bpow_lt_inv; lra).
  rewrite fexp64_eq. lia.
Qed.

Lemma within_rounding_zero : within_rounding 0 0.
Proof.
  unfold within_rounding.
  pose proof (bpow_pos (-1075)). lra.
Qed.

Lemma within_rounding_comp (v v' r : Q) :
  (v == v')%Q -> within_rounding v r -> within_rounding v' r.
Proof. unfold within_rounding. intros ->. trivial. Qed.

Lemma to_Q_nonneg (x : Float64.float) :
  Float64.is_nonneg_finite x = true -> (0 <= Float64.to_Q x)%Q.
Proof.
  destruct x as [s|s| |[|] m e]; intros H; try discriminate H.
  - apply Qle_refl.
  - rewrite to_Q_finite. apply Qmult_le_0_compat.
    + rewrite <- (Zle_Qle 0). lia.
    + pose proof (bpow_pos e). lra.
Qed.

(** ** Products, quotients, conversions *)

(** The product of two non-negative floats is the rounding of the exact
    product. *)
Lemma mul_error (x y : Float64.float) :
  Float64.is_nonneg_finite x = true ->
  Float64.is_nonneg_finite y = true ->
  (Float64.to_Q x * Float64.to_Q y < bpow 971)%Q ->
  Float64.is_nonneg_finite (Float64.mul x y) = true /\
  within_rounding (Float64.to_Q x * Float64.to_Q y) (Float64.to_Q (Float64.mul x y)).
Proof.
  intros Hx Hy Hv.
  destruct x as [sx|sx| |[|] mx ex]; try discriminate;
    destruct y as [sy|sy| |[|] my ey]; try discriminate;
    try (split; [reflexivity|];
         eapply within_rounding_comp; [|apply within_rounding_zero];
         cbn [Float64.to_Q]; ring).
  unfold Float64.mul, SFmul. cbn [xorb].
  rewrite !to_Q_finite in Hv.
  assert (Hprod : (inject_Z (Zpos mx) * bpow ex * (inject_Z (Zpos my) * bpow ey)
                   == inject_Z (Zpos (mx * my)) * bpow (ex + ey))%Q).
  { rewrite Pos2Z.inj_mul, inject_Z_mult, bpow_add. ring. }
  rewrite Hprod in Hv.
  destruct (binary_round_aux_relative (Zpos (mx * my)) (ex + ey) loc_Exact
              (inject_Z (Zpos (mx * my)))) as [Hfin Herr].
  - lia.
  - constructor. reflexivity.
  - left; reflexivity.
  - apply exponent_guard; [lia|exact Hv].
  - split; [exact Hfin|].
    eapply within_rounding_comp; [|exact Herr].
    rewrite !to_Q_finite. symmetry. exact Hprod.
Qed.

(** The location [new_location] computes for a remainder. *)
Lemma new_location_located (d q r : Z) :
  0 < d -> 0 <= r < d ->
  located (inject_Z (q * d + r) / inject_Z d) q (new_location d r).
Proof.
  intros Hd Hr.
  assert (HD : (0 < inject_Z d)%Q) by (rewrite <- (Zlt_Qlt 0); exact Hd).
  assert (Ht : (inject_Z (q * d + r) / inject_Z d == inject_Z q + inject_Z r / inject_Z d)%Q).
  { rewrite inject_Z_plus, inject_Z_mult. field. lra. }
  eapply located_comp; [symmetry; exact Ht|].
  assert (Hr0 : (0 <= inject_Z r)%Q) by (rewrite <- (Zle_Qle 0); lia).
  assert (Hlt1 : (inject_Z r / inject_Z d < 1)%Q).
  { apply Qlt_shift_div_r; [exact HD|]. rewrite Qmult_1_l, <- Zlt_Qlt. lia. }
  assert (Hhalf : forall c, Z.compare (2 * r) d = c ->
            match c with
            | Lt => (inject_Z r / inject_Z d < 1 # 2)%Q
            | Eq => (inject_Z r / inject_Z d == 1 # 2)%Q
            | Gt => ((1 # 2) < inject_Z r / inject_Z d)%Q
            end).
  { intros c Hc. destruct c.
    - apply Z.compare_eq in Hc. rewrite <- Hc, inject_Z_mult. field.
      change (inject_Z 2) with 2%Q. intros E.
      assert (inject_Z r == 0)%Q by lra. rewrite <- Hc, inject_Z_mult in HD.
      change (inject_Z 2) with 2%Q in HD. lra.
    - apply Qlt_shift_div_r; [exact HD|].
      rewrite Z.compare_lt_iff, Zlt_Qlt, inject_Z_mult in Hc.
      change (inject_Z 2) with 2%Q in Hc. lra.
    - apply Qlt_shift_div_l; [exact HD|].
      rewrite Z.compare_gt_iff, Zlt_Qlt, inject_Z_mult in Hc.
      change (inject_Z 2) with 2%Q in Hc. lra. }
  assert (Hpos : r <> 0 -> (0 < inject_Z r / inject_Z d)%Q).
  { intros Hn. apply Qlt_shift_div_l; [exact HD|].
    rewrite Qmult_0_l, <- (Zlt_Qlt 0). lia. }
  unfold new_location.
  destruct (Z.even d) eqn:Heven.
  - unfold new_location_even.
    destruct (Z.eqb_spec r 0) as [->|Hn].
    + constructor. unfold Qdiv. change (inject_Z 0) with 0%Q. ring.
    + specialize (Hpos Hn). specialize (Hhalf _ eq_refl).
      destruct (2 * r ?= d); constructor; lra.
  - unfold new_location_odd.
    destruct (Z.eqb_spec r 0) as [->|Hn].
    + constructor. unfold Qdiv. change (inject_Z 0) with 0%Q. ring.
    + specialize (Hpos Hn).
      assert (Hodd : Z.odd d = true) by (rewrite <- Z.negb_even, Heven; reflexivity).
      apply Z.odd_spec in Hodd. destruct Hodd as [k Hk].
      destruct (2 * r + 1 ?= d) eqn:Hc.
      * apply Z.compare_eq in Hc.
        assert (Hc' : (2 * r ?= d) = Lt) by (apply Z.compare_lt_iff; lia).
        specialize (Hhalf _ Hc'). cbv iota in Hhalf. constructor; lra.
      * change (2 * r + 1 < d) in Hc.
        assert (Hc' : (2 * r ?= d) = Lt) by (apply Z.compare_lt_iff; lia).
        specialize (Hhalf _ Hc'). cbv iota in Hhalf. constructor; lra.
      * apply Z.compare_gt_iff in Hc.
        assert (Hc' : (2 * r ?= d) = Gt) by (apply Z.compare_gt_iff; lia).
        specialize (Hhalf _ Hc'). cbv iota in Hhalf. constructor; lra.
Qed.


Lemma div_eucl_div_mod (a b : Z) : Z.div_eucl a b = (a / b, a mod b).
Proof. unfold Z.div, Z.modulo. destruct (Z.div_eucl a b); reflexivity. Qed.

(** The quotient, exponent and location [SFdiv] starts from. *)
Lemma div_core (mx my : positive) (ex ey : Z) :
  let e' := Z.min (fexp64 (Zpos (digits2_pos mx) + ex - (Zpos (digits2_pos my) + ey)))
                  (ex - ey) in
  let m' := Zpos mx * 2 ^ (ex - ey - e') in
  SFdiv_core_binary Float64.prec Float64.emax (Zpos mx) ex (Zpos my) ey =
  (m' / Zpos my, e', new_location (Zpos my) (m' mod Zpos my)).
Proof.
  cbv zeta. unfold SFdiv_core_binary. cbn [Zdigits2].
  set (e' := Z.min (fexp64 (Zpos (digits2_pos mx) + ex - (Zpos (digits2_pos my) + ey)))
                   (ex - ey)).
  assert (Hs : 0 <= ex - ey - e') by (unfold e'; lia).
  replace (match ex - ey - e' with
           | 0 => Zpos mx
           | Zpos _ => Z.shiftl (Zpos mx) (ex - ey - e')
           | Zneg _ => 0
           end) with (Zpos mx * 2 ^ (ex - ey - e')).
  - rewrite div_eucl_div_mod. reflexivity.
  - destruct (ex - ey - e') as [|s|s] eqn:Es.
    + rewrite Z.pow_0_r. lia.
    + rewrite Z.shiftl_mul_pow2 by lia. reflexivity.
    + lia.
Qed.

(** A double has a mantissa of at most 53 bits and an exponent between
    -1074 and 971. *)
Lemma valid_binary_bounds (m : positive) (e : Z) :
  valid_binary Float64.prec Float64.emax (S754_finite false m e) = true ->
  Zpos (digits2_pos m) <= 53 /\ -1074 <= e <= 971.
Proof.
  unfold valid_binary, bounded, canonical_mantissa. intros H.
  apply andb_prop in H as [Hc Hb].
  apply Z.eqb_eq in Hc. apply Z.leb_le in Hb.
  rewrite fexp64_eq in Hc. unfold Float64.emax, Float64.prec in Hb. lia.
Qed.


(** The quotient of two positive floats is the rounding of the exact
    quotient, and is the exact quotient when that is a multiple of the unit
    in the last place. *)
Lemma truediv_error (mx my : positive) (ex ey : Z) :
  let D := Zpos (digits2_pos mx) + ex - (Zpos (digits2_pos my) + ey) in
  D <= 1022 ->
  let x := S754_finite false mx ex in
  let y := S754_finite false my ey in
  Float64.is_nonneg_finite (Float64.truediv x y) = true /\
  within_rounding (Float64.to_Q x / Float64.to_Q y)
    (Float64.to_Q (Float64.truediv x y)) /\
  (forall k : Z,
     (Float64.to_Q x / Float64.to_Q y == inject_Z k * bpow (fexp64 (D + 1)))%Q ->
     (Float64.to_Q (Float64.truediv x y) == Float64.to_Q x / Float64.to_Q y)%Q).
Proof.
  intros D HD x y.
  unfold x, y, Float64.truediv, SFdiv. cbn [xorb].
  rewrite div_core.
  set (dx := Zpos (digits2_pos mx)) in *. set (dy := Zpos (digits2_pos my)) in *.
  fold D.
  set (e' := Z.min (fexp64 D) (ex - ey)).
  set (s := ex - ey - e').
  set (m' := Zpos mx * 2 ^ s).
  assert (Hs : 0 <= s) by (unfold s, e'; lia).
  assert (Hpow : 0 < 2 ^ s) by (apply Z.pow_pos_nonneg; lia).
  assert (Hm' : 0 < m') by (unfold m'; lia).
  pose proof (Z.div_mod m' (Zpos my) ltac:(lia)) as Hdm.
  pose proof (Z.mod_pos_bound m' (Zpos my) ltac:(lia)) as Hmod.
  set (q := m' / Zpos my) in *. set (r := m' mod Zpos my) in *.
  assert (Hq0 : 0 <= q) by (apply Z.div_pos; lia).
  assert (Hloc : located (inject_Z m' / inject_Z (Zpos my)) q
                   (new_location (Zpos my) r)).
  { replace m' with (q * Zpos my + r) by lia.
    apply new_location_located; lia. }
  pose proof (digits2_pos_bounds mx) as [Hxlow Hxhigh]. fold dx in Hxlow, Hxhigh.
  pose proof (digits2_pos_bounds my) as [Hylow Hyhigh]. fold dy in Hylow, Hyhigh.
  assert (Hdx : 1 <= dx) by (unfold dx; lia).
  assert (Hdy : 1 <= dy) by (unfold dy; lia).
  (* the quotient has at least 53 bits unless the result is subnormal *)
  assert (Hshift : e' <= fexp64 (Zdigits2 q + e')).
  { rewrite fexp64_eq.
    destruct (Z_le_gt_dec e' (-1074)) as [|Hgt]; [lia|].
    assert (Hs' : 53 + dy - dx <= s)
      by (clear - Hgt; unfold s, e', D in *; rewrite fexp64_eq in *; lia).
    assert (Hbig : 2 ^ 52 * 2 ^ dy <= m').
    { unfold m'. rewrite <- Z.pow_add_r by lia.
      apply Z.le_trans with (2 ^ (dx - 1) * 2 ^ s).
      - rewrite <- Z.pow_add_r by lia. apply Z.pow_le_mono_r; lia.
      - apply Z.mul_le_mono_nonneg_r; lia. }
    assert (Hq52 : 2 ^ 52 <= q).
    { destruct (Z_le_gt_dec (2 ^ 52) q) as [|Hsmall]; [assumption|exfalso].
      assert (q * Zpos my + r < 2 ^ 52 * Zpos my).
      { apply Z.lt_le_trans with ((q + 1) * Zpos my); [lia|].
        apply Z.mul_le_mono_nonneg_r; lia. }
      assert (2 ^ 52 * Zpos my < 2 ^ 52 * 2 ^ dy).
      { apply Z.mul_lt_mono_pos_l; [reflexivity|assumption]. }
      lia. }
    pose proof (Zdigits2_ge q 52 ltac:(lia) Hq52). lia. }
  (* and the exponent it is rounded at is that of the format *)
  assert (Hround : Z.max e' (fexp64 (Zdigits2 q + e')) <= fexp64 (D + 1)).
  { assert (He' : e' <= fexp64 D) by (unfold e'; lia).
    assert (Hdq : q = 0 \/ Zdigits2 q + e' <= D + 1).
    { destruct (Z_le_gt_dec (dy - 1) (dx + s)) as [Hge|Hlt].
      - right.
        assert (Hq : q < 2 ^ (dx + s - (dy - 1))).
        { assert (Hm'lt : m' < 2 ^ (dx + s - (dy - 1)) * 2 ^ (dy - 1)).
          { rewrite <- Z.pow_add_r by lia.
            replace (dx + s - (dy - 1) + (dy - 1)) with (dx + s) by lia.
            rewrite Z.pow_add_r by lia. unfold m'.
            apply Z.mul_lt_mono_pos_r; lia. }
          assert (Hp : 0 < 2 ^ (dx + s - (dy - 1))) by (apply Z.pow_pos_nonneg; lia).
          destruct (Z_lt_ge_dec q (2 ^ (dx + s - (dy - 1)))) as [|Hbig];
            [assumption|exfalso].
          assert (2 ^ (dx + s - (dy - 1)) * 2 ^ (dy - 1) <= q * Zpos my).
          { apply Z.le_trans with (q * 2 ^ (dy - 1)).
            - apply Z.mul_le_mono_nonneg_r; [|lia]. apply Z.pow_nonneg; lia.
            - apply Z.mul_le_mono_nonneg_l; lia. }
          lia. }
        pose proof (Zdigits2_le q (dx + s - (dy - 1)) Hq0 ltac:(lia) Hq).
        unfold s, D in *. lia.
      - left.
        assert (Hm'lt : m' < 2 ^ (dy - 1)).
        { apply Z.lt_le_trans with (2 ^ (dx + s)).
          - rewrite Z.pow_add_r by lia. unfold m'.
            apply Z.mul_lt_mono_pos_r; lia.
          - apply Z.pow_le_mono_r; lia. }
        destruct (Z.eq_dec q 0) as [|Hne]; [assumption|exfalso].
        assert (1 * Zpos my <= q * Zpos my)
          by (apply Z.mul_le_mono_nonneg_r; lia).
        lia. }
    rewrite !fexp64_eq in *.
    destruct Hdq as [->|Hdq]; [cbn [Zdigits2]|]; lia. }
  assert (Hguard : Z.max e' (fexp64 (Zdigits2 q + e')) <= 970)
    by (rewrite !fexp64_eq in *; lia).
  assert (Hvalue : (inject_Z m' / inject_Z (Zpos my) * bpow e'
                    == Float64.to_Q (S754_finite false mx ex)
                       / Float64.to_Q (S754_finite false my ey))%Q).
  { rewrite !to_Q_finite. unfold m'. rewrite inject_Z_mult.
    rewrite <- (bpow_Z s) by assumption.
    assert (Hex' : (bpow ex == bpow s * bpow e' * bpow ey)%Q).
    { rewrite <- !bpow_add. replace (s + e' + ey) with ex by (unfold s; lia).
      reflexivity. }
    rewrite Hex'. field.
    pose proof (bpow_pos ey).
    assert (0 < inject_Z (Zpos my))%Q by (rewrite <- (Zlt_Qlt 0); lia).
    split; lra. }
  destruct (binary_round_aux_relative q e' (new_location (Zpos my) r)
              _ Hq0 Hloc (or_intror Hshift) Hguard) as [Hfin Herr].
  destruct (binary_round_aux_error q e' (new_location (Zpos my) r)
              _ Hq0 Hloc Hguard) as (_ & _ & Hexact).
  split; [exact Hfin|]. split.
  - eapply within_rounding_comp; [exact Hvalue|exact Herr].
  - intros k Hk. rewrite <- Hvalue. rewrite <- Hvalue in Hk.
    set (e1 := Z.max e' (fexp64 (Zdigits2 q + e'))) in *.
    apply (Hexact (k * 2 ^ (fexp64 (D + 1) - e1))).
    rewrite inject_Z_mult, <- bpow_Z by lia.
    assert (Hsplit : (bpow (e' - e1) == bpow e' * bpow (- fexp64 (D + 1))
                          * bpow (fexp64 (D + 1) - e1))%Q).
    { rewrite <- !bpow_add. f_equiv. lia. }
    rewrite Hsplit, !Qmult_assoc, Hk.
    assert (Hone : (bpow (fexp64 (D + 1)) * bpow (- fexp64 (D + 1)) == 1)%Q).
    { rewrite <- bpow_add, Z.add_opp_diag_r. reflexivity. }
    rewrite <- (Qmult_assoc (inject_Z k)), Hone. ring.
Qed.

(** [p / 100.0] is the rounding of the exact quotient, for every
    non-negative double [p]. *)
Lemma truediv_hundred_error (p : Float64.float) :
  Float64.is_nonneg_finite p = true ->
  valid_binary Float64.prec Float64.emax p = true ->
  Float64.is_nonneg_finite (Float64.truediv p hundred) = true /\
  within_rounding (Float64.to_Q p / inject_Z 100)
    (Float64.to_Q (Float64.truediv p hundred)).
Proof.
  intros Hp Hvalid.
  destruct p as [s|s| |[|] mp ep]; try discriminate Hp.
  - split; [reflexivity|].
    eapply within_rounding_comp; [|apply within_rounding_zero].
    cbn [Float64.to_Q]. unfold Qdiv. ring.
  - destruct (valid_binary_bounds mp ep Hvalid) as [Hd1 Hep].
    destruct (truediv_error mp 7036874417766400 ep (-46)) as (Hfin & Herr & _).
    + change (Zpos (digits2_pos 7036874417766400)) with 53. lia.
    + split; [exact Hfin|].
      eapply within_rounding_comp; [|exact Herr].
      assert (H100 : (Float64.to_Q (S754_finite false 7036874417766400 (-46))
                      == inject_Z 100)%Q) by reflexivity.
      rewrite H100. reflexivity.
Qed.


Lemma iter_xO_pow (m k : positive) :
  Zpos (Pos.iter xO m k) = Zpos m * 2 ^ Zpos k.
Proof.
  change (Pos.iter xO m k) with (shift_pos k m).
  rewrite shift_pos_correct. change (Z.pow_pos 2 k) with (2 ^ Zpos k). lia.
Qed.

(** An integer below [2 ^ 53] is converted without rounding. *)
Lemma of_int_exact (n : Z) :
  0 <= n < 2 ^ 53 ->
  exists f, Float64.of_int n = Ok f /\
            Float64.is_nonneg_finite f = true /\
            (Float64.to_Q f == inject_Z n)%Q.
Proof.
  intros [Hn0 Hn].
  destruct n as [|m|m]; [| |lia].
  - exists (S754_zero false). repeat split; reflexivity.
  - unfold Float64.of_int, binary_normalize, binary_round.
    assert (Hd : Zpos (digits2_pos m) <= 53).
    { apply (Zdigits2_le (Zpos m) 53); lia. }
    pose proof (digits2_pos_bounds m) as [_ Hhigh].
    set (d := Zpos (digits2_pos m)) in *.
    assert (Hd1 : 1 <= d) by (unfold d; lia).
    assert (Halign : exists mz ez,
               shl_align m 0 (fexp64 (d + 0)) = (mz, ez) /\
               -1074 <= ez <= 0 /\ Zpos mz < 2 ^ 53 /\
               (inject_Z (Zpos mz) * bpow ez == inject_Z (Zpos m))%Q).
    { unfold shl_align. rewrite fexp64_eq.
      destruct (Z.max (d + 0 - 53) (-1074) - 0) as [|k|k] eqn:Ek.
      - exists m, 0. split; [reflexivity|]. split; [lia|]. split; [assumption|].
        rewrite bpow_0. ring.
      - lia.
      - exists (Pos.iter xO m k), (Z.max (d + 0 - 53) (-1074)).
        split; [reflexivity|]. split; [lia|].
        rewrite iter_xO_pow. split.
        + apply Z.lt_le_trans with (2 ^ d * 2 ^ Zpos k).
          * apply Z.mul_lt_mono_pos_r; [apply Z.pow_pos_nonneg; lia|assumption].
          * rewrite <- Z.pow_add_r by lia. apply Z.pow_le_mono_r; lia.
        + rewrite inject_Z_mult, <- bpow_Z by lia.
          rewrite <- Qmult_assoc, <- bpow_add.
          replace (Zpos k + Z.max (d + 0 - 53) (-1074)) with 0 by lia.
          rewrite bpow_0. ring. }
    destruct Halign as (mz & ez & -> & Hez & Hmz & Hval).
    assert (Hdz : Zdigits2 (Zpos mz) <= 53) by (apply Zdigits2_le; lia).
    pose proof (Zdigits2_nonneg (Zpos mz)) as Hdz0.
    assert (He1 : Z.max ez (fexp64 (Zdigits2 (Zpos mz) + ez)) = ez)
      by (rewrite fexp64_eq; lia).
    destruct (binary_round_aux_error (Zpos mz) ez loc_Exact (inject_Z (Zpos mz)))
      as (Hfin & _ & Hex).
    + lia.
    + constructor. reflexivity.
    + rewrite He1. lia.
    + rewrite He1 in Hex.
      assert (Hk : (inject_Z (Zpos mz) * bpow (ez - ez) == inject_Z (Zpos mz))%Q)
        by (rewrite Z.sub_diag, bpow_0; ring).
      specialize (Hex (Zpos mz) Hk).
      destruct (binary_round_aux Float64.prec Float64.emax false (Zpos mz) ez loc_Exact)
        as [s|s| |s mr er] eqn:ER; try discriminate Hfin.
      * eexists. split; [reflexivity|]. split; [reflexivity|].
        rewrite Hex. exact Hval.
      * eexists. split; [reflexivity|]. split; [exact Hfin|].
        rewrite Hex. exact Hval.
Qed.

(** [int] of a non-negative float is the floor of its value. *)
Lemma to_int_floor (x : Float64.float) :
  Float64.is_nonneg_finite x = true ->
  Float64.to_int x = Ok (Qfloor (Float64.to_Q x)).
Proof.
  destruct x as [s|s| |s m e]; try discriminate.
  - reflexivity.
  - destruct s; [discriminate|]. intros _.
    unfold Float64.to_int, Float64.to_Q. cbn [cond_Zopp].
    destruct (Z.leb_spec 0 e) as [He|He].
    + rewrite Qfloor_Z. reflexivity.
    + rewrite Z.shiftr_div_pow2 by lia. cbn [Qfloor].
      rewrite Z2Pos.id by (apply Z.pow_pos_nonneg; lia).
      reflexivity.
Qed.

(** ** [math.ceil(n / 4)] in doubles *)

Lemma ceil_Qceiling (x : Float64.float) :
  Float64.is_nonneg_finite x = true -> Float64.ceil x = Ok (Qceiling (Float64.to_Q x)).
Proof.
  destruct x as [s|s| |[|] m e]; intros H; try discriminate H.
  - reflexivity.
  - unfold Float64.ceil, Float64.to_Q. cbn [cond_Zopp].
    destruct (Z.leb_spec 0 e) as [He|He].
    + rewrite Qceiling_Z. reflexivity.
    + rewrite Z.shiftr_div_pow2 by lia. unfold Qceiling. cbn [Qopp Qnum Qden Qfloor Z.opp].
      rewrite Z2Pos.id by (apply Z.pow_pos_nonneg; lia).
      reflexivity.
Qed.

(** The exponent of the leading bit of a float is that of its value. *)
Lemma digits_of_value (mx : positive) (ex n : Z) :
  0 < n ->
  (inject_Z (Zpos mx) * bpow ex == inject_Z n)%Q ->
  Zpos (digits2_pos mx) + ex = Zdigits2 n.
Proof.
  intros Hn Hv.
  pose proof (digits2_pos_bounds mx) as [Hlo Hhi].
  pose proof (Zdigits2_bounds n Hn) as [Hnlo Hnhi].
  set (d := Zpos (digits2_pos mx)) in *.
  assert (Hd : 1 <= d) by (unfold d; lia).
  assert (Hdn : 1 <= Zdigits2 n) by (destruct n; cbn; lia).
  pose proof (bpow_pos ex) as Hb.
  rewrite Zle_Qle, <- bpow_Z in Hlo, Hnlo by lia.
  rewrite Zlt_Qlt, <- bpow_Z in Hhi, Hnhi by lia.
  assert (H1 : (bpow (d - 1 + ex) <= inject_Z n)%Q).
  { rewrite bpow_add, <- Hv. apply Qmult_le_compat_r; lra. }
  assert (H2 : (inject_Z n < bpow (d + ex))%Q).
  { rewrite bpow_add, <- Hv. apply Qmult_lt_compat_r; lra. }
  assert (d - 1 + ex < Zdigits2 n) by (apply bpow_lt_inv; lra).
  assert (Zdigits2 n - 1 < d + ex) by (apply bpow_lt_inv; lra).
  lia.
Qed.

(** Below [2 ^ 53] the double computation of [math.ceil(n / 4)] is the
    integer ceiling. *)
Lemma approx_tokens_in_doubles_exact (n : Z) :
  0 <= n < 2 ^ 53 -> approx_tokens_in_doubles n = Ok (math_ceil_div n 4).
Proof.
  intros Hn. unfold approx_tokens_in_doubles, Float64.int_truediv.
  destruct (of_int_exact n Hn) as (f & -> & Hfin & Hval).
  change (Float64.of_int 4) with (Ok (S754_finite false 4503599627370496 (-50))).
  cbn [rbind].
  assert (Hq : Float64.is_nonneg_finite
                 (Float64.truediv f (S754_finite false 4503599627370496 (-50))) = true /\
               (Float64.to_Q (Float64.truediv f (S754_finite false 4503599627370496 (-50)))
                == inject_Z n / inject_Z 4)%Q).
  { destruct f as [s|s| |[|] mx ex]; try discriminate Hfin.
    - split; [reflexivity|]. rewrite <- Hval. reflexivity.
    - rewrite to_Q_finite in Hval.
      assert (Hpos : 0 < n).
      { rewrite Zlt_Qlt, <- Hval. apply Qmult_lt_0_compat; [reflexivity|apply bpow_pos]. }
      pose proof (digits_of_value mx ex n Hpos Hval) as Hdig.
      assert (Hdn : 1 <= Zdigits2 n <= 53).
      { split; [destruct n; cbn; lia|apply Zdigits2_le; lia]. }
      destruct (truediv_error mx 4503599627370496 ex (-50)) as (Hqfin & _ & Hexact).
      + change (Zpos (digits2_pos 4503599627370496)) with 53. lia.
      + split; [exact Hqfin|].
        assert (Hfour : (Float64.to_Q (S754_finite false 4503599627370496 (-50))
                         == inject_Z 4)%Q) by reflexivity.
        rewrite (Hexact (n * 2 ^ (53 - Zdigits2 n))).
        * rewrite Hfour, to_Q_finite, Hval. reflexivity.
        * rewrite Hfour, to_Q_finite, Hval.
          change (Zpos (digits2_pos 4503599627370496)) with 53.
          replace (Zpos (digits2_pos mx) + ex - (53 + -50) + 1) with (Zdigits2 n - 2) by lia.
          rewrite fexp64_eq.
          replace (Z.max (Zdigits2 n - 2 - 53) (-1074)) with (Zdigits2 n - 55) by lia.
          rewrite inject_Z_mult, <- bpow_Z by lia.
          rewrite <- Qmult_assoc, <- bpow_add.
          replace (53 - Zdigits2 n + (Zdigits2 n - 55)) with (- 2) by lia.
          change (bpow (-2)) with (1 # 4)%Q. change (inject_Z 4) with 4%Q. field. }
  destruct Hq as [Hqfin Hqval].
  rewrite (ceil_Qceiling _ Hqfin), (Qceiling_comp _ _ Hqval).
  f_equal. unfold math_ceil_div, Qceiling. f_equal.
  rewrite Zdiv_Qdiv. apply Qfloor_comp. rewrite inject_Z_opp. field.
Qed.

(** The leading bit of a float lies where its value tells. *)
Lemma digits_below (m : positive) (e k : Z) :
  (Float64.to_Q (S754_finite false m e) < bpow k)%Q ->
  Zpos (digits2_pos m) + e <= k.
Proof.
  rewrite to_Q_finite. intros H.
  pose proof (digits2_pos_bounds m) as [Hlo _].
  set (d := Zpos (digits2_pos m)) in *.
  assert (Hd : 1 <= d) by (unfold d; lia).
  rewrite Zle_Qle, <- bpow_Z in Hlo by lia.
  pose proof (bpow_pos e) as Hb.
  assert (H1 : (bpow (d - 1 + e) <= inject_Z (Zpos m) * bpow e)%Q).
  { rewrite bpow_add. apply Qmult_le_compat_r; lra. }
  assert (d - 1 + e < k) by (apply bpow_lt_inv; lra).
  lia.
Qed.

(** Every integer from 0 to [2 ^ 63] is converted, to a float below
    [2 ^ 64]. *)
Lemma of_int_in_range (n : Z) :
  0 <= n < 2 ^ 63 ->
  exists f, Float64.of_int n = Ok f /\
            Float64.is_nonneg_finite f = true /\
            (Float64.to_Q f < bpow 64)%Q.
Proof.
  intros [Hn0 Hn].
  destruct (Z.lt_ge_cases n (2 ^ 53)) as [Hsmall|Hbig].
  - destruct (of_int_exact n (conj Hn0 Hsmall)) as (f & Hf & Hfin & Hval).
    exists f. split; [exact Hf|]. split; [exact Hfin|].
    rewrite Hval, (bpow_Z 64) by lia. rewrite <- Zlt_Qlt. lia.
  - destruct n as [|m|m]; [lia| |lia].
    unfold Float64.of_int, binary_normalize, binary_round.
    pose proof (Zdigits2_ge (Zpos m) 53 ltac:(lia) Hbig) as Hge.
    pose proof (Zdigits2_le (Zpos m) 63 ltac:(lia) ltac:(lia) Hn) as Hle.
    change (Zdigits2 (Zpos m)) with (Zpos (digits2_pos m)) in Hge, Hle.
    set (d := Zpos (digits2_pos m)) in *.
    unfold shl_align. rewrite fexp64_eq.
    destruct (Z.max (d + 0 - 53) (-1074) - 0) as [|k|k] eqn:Ek; [lia| |lia].
    destruct (binary_round_aux_error (Zpos m) 0 loc_Exact (inject_Z (Zpos m)))
      as (Hfin & [_ Hup] & _).
    + lia.
    + constructor. reflexivity.
    + change (Zdigits2 (Zpos m)) with d. rewrite fexp64_eq. lia.
    + change (Zdigits2 (Zpos m)) with d in Hup. rewrite fexp64_eq in Hup.
      set (R := binary_round_aux Float64.prec Float64.emax false (Zpos m) 0 loc_Exact) in *.
      exists R. split; [|split; [exact Hfin|]].
      * destruct R; try discriminate Hfin; reflexivity.
      * rewrite bpow_0, Qmult_1_r in Hup.
        assert (Hhalf : (bpow (Z.max 0 (Z.max (d + 0 - 53) (-1074)) - 1) <= bpow 9)%Q)
          by (apply bpow_le; lia).
        assert (Hm : (inject_Z (Zpos m) < bpow 63)%Q).
        { rewrite (bpow_Z 63) by lia. rewrite <- Zlt_Qlt. exact Hn. }
        assert (H9 : (bpow 9 < bpow 63)%Q).
        { rewrite (bpow_Z 9), (bpow_Z 63) by lia. rewrite <- Zlt_Qlt. reflexivity. }
        assert (H64 : (bpow 64 == bpow 63 + bpow 63)%Q).
        { rewrite (bpow_succ 63). ring. }
        lra.
Qed.

(** [math.ceil(n / 4)] in doubles returns, and returns a natural number,
    for every length a string can have. *)
Lemma approx_tokens_in_doubles_returns (n : Z) :
  0 <= n < 2 ^ 63 ->
  exists k, approx_tokens_in_doubles n = Ok k /\ 0 <= k.
Proof.
  intros Hn. unfold approx_tokens_in_doubles, Float64.int_truediv.
  destruct (of_int_in_range n Hn) as (f & -> & Hfin & Hlt).
  change (Float64.of_int 4) with (Ok (S754_finite false 4503599627370496 (-50))).
  cbn [rbind].
  assert (Hq : Float64.is_nonneg_finite
                 (Float64.truediv f (S754_finite false 4503599627370496 (-50))) = true).
  { destruct f as [s|s| |[|] mx ex]; try discriminate Hfin.
    - reflexivity.
    - pose proof (digits_below mx ex 64 Hlt) as Hd.
      destruct (truediv_error mx 4503599627370496 ex (-50)) as (Hqfin & _).
      + change (Zpos (digits2_pos 4503599627370496)) with 53. lia.
      + exact Hqfin. }
  rewrite (ceil_Qceiling _ Hq). eexists. split; [reflexivity|].
  pose proof (to_Q_nonneg _ Hq) as H0.
  pose proof (Qle_ceiling (Float64.to_Q
                (Float64.truediv f (S754_finite false 4503599627370496 (-50))))) as Hc.
  assert (H : (inject_Z 0 <= inject_Z (Qceiling (Float64.to_Q
                (Float64.truediv f (S754_finite false 4503599627370496 (-50))))))%Q).
  { change (inject_Z 0) with 0%Q. lra. }
  rewrite <- Zle_Qle in H. exact H.
Qed.

Example approx_tokens_in_doubles_samples :
  map approx_tokens_in_doubles [0; 1; 4; 5; 400; 2 ^ 53 - 1] =
  map Ok [0; 1; 1; 2; 100; 2 ^ 51].
Proof. vm_compute. reflexivity. Qed.

(** ** The error of the overhead *)

(** With a quotient and a sum within the bounds of the statement, the
    product stays far below the overflow threshold. *)
Lemma product_guard (N v X u eta : Q) :
  (0 <= N <= 9007199254740992 -> 0 <= v -> N * v <= 1125899906842624 ->
   0 <= u <= 1 # 9007199254740992 -> 0 <= eta <= 1 # 1152921504606846976 ->
   v - (v * u + eta) <= X <= v + (v * u + eta) ->
   N * X < 2251799813685248)%Q.
Proof.
  intros HN Hv HY Hu Heta HXb.
  assert (HYu : (N * v * u <= 1 # 8)%Q) by nra.
  assert (HNe : (N * eta <= 1 # 128)%Q) by nra.
  assert (HNX1 : (N * X <= N * v + N * v * u + N * eta)%Q) by nra.
  lra.
Qed.

(** The two rounding errors add up to less than one. *)
Lemma error_budget (N v X R u eta : Q) :
  (0 <= N <= 9007199254740992 -> 0 <= v -> N * v <= 1125899906842624 ->
   0 <= u <= 1 # 9007199254740992 -> 0 <= eta <= 1 # 1152921504606846976 ->
   0 <= X ->
   v - (v * u + eta) <= X <= v + (v * u + eta) ->
   N * X - (N * X * u + eta) <= R <= N * X + (N * X * u + eta) ->
   N * v - 1 < R < N * v + 1)%Q.
Proof.
  intros HN Hv HY Hu Heta HX HXb HRb.
  assert (HYu : (N * v * u <= 1 # 8)%Q) by nra.
  assert (HNe : (N * eta <= 1 # 128)%Q) by nra.
  assert (HNX1 : (N * X <= N * v + N * v * u + N * eta)%Q) by nra.
  assert (HNX2 : (N * v - N * v * u - N * eta <= N * X)%Q) by nra.
  assert (HNX0 : (0 <= N * X)%Q) by nra.
  assert (HNXu : (N * X * u <= 1 # 4)%Q) by nra.
  assert (HNXu0 : (0 <= N * X * u)%Q) by nra.
  split; lra.
Qed.

Lemma unit_roundoff_bounds :
  (0 <= bpow (-53) <= 1 # 9007199254740992)%Q /\
  (0 <= bpow (-1075) <= 1 # 1152921504606846976)%Q.
Proof.
  pose proof (bpow_pos (-53)). pose proof (bpow_pos (-1075)).
  pose proof (bpow_le (-1075) (-60) ltac:(lia)) as H60.
  assert (E53 : (bpow (-53) == 1 # 9007199254740992)%Q) by reflexivity.
  assert (E60 : (bpow (-60) == 1 # 1152921504606846976)%Q) by reflexivity.
  rewrite E60 in H60. rewrite E53. split; split; lra.
Qed.

(** Two rationals less than one apart have floors at most one apart. *)
Lemma Qfloor_close (x y : Q) :
  (y - 1 < x < y + 1)%Q -> Qfloor y - 1 <= Qfloor x <= Qfloor y + 1.
Proof.
  intros [H1 H2].
  pose proof (Qfloor_le x) as Hx1. pose proof (Qlt_floor x) as Hx2.
  pose proof (Qfloor_le y) as Hy1. pose proof (Qlt_floor y) as Hy2.
  rewrite inject_Z_plus in Hx2, Hy2. change (inject_Z 1) with 1%Q in Hx2, Hy2.
  assert (Ha : (inject_Z (Qfloor x) < inject_Z (Qfloor y + 2))%Q).
  { rewrite inject_Z_plus. change (inject_Z 2) with 2%Q. lra. }
  assert (Hb : (inject_Z (Qfloor y) < inject_Z (Qfloor x + 2))%Q).
  { rewrite inject_Z_plus. change (inject_Z 2) with 2%Q. lra. }
  rewrite <- Zlt_Qlt in Ha, Hb. lia.
Qed.

(** For a sum below [2 ^ 53] and a non-negative double [p] with
    [sum * p / 100] at most [2 ^ 50], [apply_overhead] returns, and what it
    returns is the exact floor or one of its two neighbours. *)
Lemma apply_overhead_within_one (n : Z) (p : Float64.float) :
  0 <= n < 2 ^ 53 ->
  Float64.is_nonneg_finite p = true ->
  valid_binary Float64.prec Float64.emax p = true ->
  (inject_Z n * Float64.to_Q p / inject_Z 100 <= inject_Z (2 ^ 50))%Q ->
  exists o, apply_overhead n p = Ok o /\
            exact_overhead n p - 1 <= o <= exact_overhead n p + 1.
Proof.
  intros Hn Hp Hvalid HY.
  destruct (truediv_hundred_error p Hp Hvalid) as [Hx HXerr].
  destruct (of_int_exact n Hn) as (f & Hf & Hffin & HfQ).
  destruct unit_roundoff_bounds as [Hu Heta].
  pose proof (to_Q_nonneg p Hp) as HP0.
  pose proof (to_Q_nonneg _ Hx) as HX0.
  set (x := Float64.truediv p hundred) in *.
  assert (HN : (0 <= inject_Z n <= 9007199254740992)%Q).
  { change (2 ^ 53) with 9007199254740992 in Hn. split.
    - rewrite <- (Zle_Qle 0). lia.
    - change 9007199254740992%Q with (inject_Z 9007199254740992).
      rewrite <- Zle_Qle. lia. }
  assert (Hv0 : (0 <= Float64.to_Q p / inject_Z 100)%Q).
  { apply Qle_shift_div_l; [reflexivity|]. lra. }
  assert (HY' : (inject_Z n * (Float64.to_Q p / inject_Z 100) <= 1125899906842624)%Q).
  { change 1125899906842624%Q with (inject_Z (2 ^ 50)).
    eapply Qle_trans; [|exact HY]. unfold Qdiv.
    rewrite Qmult_assoc. apply Qle_refl. }
  unfold within_rounding in HXerr.
  assert (Hguard : (Float64.to_Q f * Float64.to_Q x < bpow 971)%Q).
  { rewrite HfQ.
    pose proof (product_guard _ _ _ _ _ HN Hv0 HY' Hu Heta HXerr) as Hg.
    pose proof (bpow_le 51 971 ltac:(lia)) as H51.
    assert (E51 : (bpow 51 == 2251799813685248)%Q) by reflexivity.
    rewrite E51 in H51. lra. }
  destruct (mul_error f x Hffin Hx Hguard) as [Hrfin HRerr].
  unfold within_rounding in HRerr. rewrite HfQ in HRerr.
  pose proof (error_budget _ _ _ _ _ _ HN Hv0 HY' Hu Heta HX0 HXerr HRerr) as Hclose.
  exists (Qfloor (Float64.to_Q (Float64.mul f x))). split.
  - unfold apply_overhead. fold x. rewrite Hf. cbn [rbind].
    apply to_int_floor. exact Hrfin.
  - unfold exact_overhead.
    assert (E : (inject_Z n * Float64.to_Q p / inject_Z 100
                 == inject_Z n * (Float64.to_Q p / inject_Z 100))%Q)
      by (unfold Qdiv; ring).
    rewrite (Qfloor_comp _ _ E). apply Qfloor_close. exact Hclose.
Qed.

(** * The claims *)

(** An ASCII string of [4 * k] characters, that is of [4 * k] bytes, is
    estimated at [k] tokens. *)
Lemma count_tokens_ascii_multiple (s : pystr) (bs : list Byte.byte)
    (model : option string) (k : Z) :
  forallb is_ascii s = true ->
  utf8_encode s = Ok bs ->
  len bs = 4 * k ->
  count_tokens (Some s) model = k.
Proof.
  intros Hascii Henc Hlen.
  destruct (utf8_encode_size s bs Henc) as (_ & Hsame & _).
  rewrite count_tokens_characters, <- (Hsame Hascii), Hlen.
  rewrite <- math_ceil_div_4. apply math_ceil_div_multiple.
Qed.

(** C1 (the code departs from it).  [_heuristic_token_count] divides the
    number of characters, [len(text)], not the number of UTF-8 bytes:
    three times U+00E9 is six bytes long, a quarter of which rounds up to
    2, and the estimate is 1. *)
Theorem count_tokens_divides_characters_not_bytes (model : option string) :
  count_tokens (Some three_e_acute) model = 1 /\
  exists bs, utf8_encode three_e_acute = Ok bs /\
             len bs = 6 /\ math_ceil_div (len bs) 4 = 2.
Proof.
  split; [reflexivity|].
  eexists. split; [reflexivity|]. split; reflexivity.
Qed.

(** C8.  [count_tokens] never raises and returns a non-negative integer:
    evaluated as Python does, with the division and [math.ceil] of line 10
    in doubles, it returns for every text, [None], empty, ASCII or not,
    whose length is below [2 ^ 63] (the largest length [len] can report),
    and what it returns is not negative.  Below [2 ^ 53] characters the
    value is that of the integer model [count_tokens]. *)
Theorem count_tokens_total_nonneg (text : option pystr) (model : option string) :
  char_count text < 2 ^ 63 ->
  exists n : Z,
    count_tokens_in_doubles text model = Ok n /\ 0 <= n /\
    (char_count text < 2 ^ 53 -> n = count_tokens text model).
Proof.
  intros Hlen. unfold count_tokens_in_doubles, count_tokens.
  assert (Hc : len (or_empty text) = char_count text) by apply or_empty_len.
  destruct (or_empty text) as [|c s] eqn:E.
  - exists 0. split; [reflexivity|]. split; [lia|]. intros _. reflexivity.
  - unfold _heuristic_token_count_in_doubles.
    pose proof (len_nonneg (c :: s)) as H0.
    destruct (approx_tokens_in_doubles_returns (len (c :: s)) ltac:(lia)) as (k & Hk & Hk0).
    rewrite Hk. cbn [rbind]. exists (Z.max k 0). split; [reflexivity|]. split; [lia|].
    intros Hsmall.
    rewrite (approx_tokens_in_doubles_exact (len (c :: s)) ltac:(lia)) in Hk.
    injection Hk as <-. reflexivity.
Qed.

(** C9.  The model hint does not influence the estimate. *)
Theorem count_tokens_ignores_model (text : option pystr) (m1 m2 : option string) :
  count_tokens text m1 = count_tokens text m2.
Proof. reflexivity. Qed.


(** C7.  Two mappings with the same entries in different orders lead to
    the same outcome of the aggregation: the same figures, hence the same
    decision and exit code, or the same exception. *)
Theorem aggregation_permutation_invariant (items items' : files_dict)
    (model : option string) (p : Float64.float) :
  Permutation items items' ->
  match estimate_files items model p, estimate_files items' model p with
  | Ok r, Ok r' =>
      sum_file_tokens r = sum_file_tokens r' /\
      overhead_tokens r = overhead_tokens r' /\
      total_tokens r = total_tokens r' /\
      forall args w,
        fst (report_and_exit r args w) = fst (report_and_exit r' args w) /\
        (total_tokens r <=? Args.max_context_tokens args) =
        (total_tokens r' <=? Args.max_context_tokens args)
  | Raise e, Raise e' => e = e'
  | _, _ => False
  end.
Proof.
  intros Hperm. rewrite !estimate_files_eq.
  rewrite <- (item_encodable_permutation items items' Hperm).
  rewrite <- (total_of_permutation model items items' Hperm).
  destruct (forallb item_encodable items); [|reflexivity].
  destruct (apply_overhead (total_of model items) p) as [o|e]; [|reflexivity].
  cbn [sum_file_tokens overhead_tokens total_tokens].
  repeat split.
  rewrite !report_and_exit_eq. reflexivity.
Qed.

(** C3.  The summary that is printed carries the total and the limit of the
    run, and its [within_limit] is true exactly when the total is at most
    the limit, equality included; the payload written to a file carries
    the same flag. *)
Theorem within_limit_iff_total_le_limit (result : report) (args : Args.t) (w : World) :
  exists doc rest,
    new_events w (snd (report_and_exit result args w)) = PrintJson doc :: rest /\
    printed_total_tokens doc = total_tokens result /\
    printed_max_context_tokens doc = Some (Args.max_context_tokens args) /\
    (printed_within_limit doc = true <->
     total_tokens result <= Args.max_context_tokens args) /\
    (forall out written, In (FileWritten out written) rest ->
       total_tokens (payload_result written) = total_tokens result /\
       (within_limit written = true <->
        total_tokens result <= Args.max_context_tokens args)).
Proof.
  rewrite report_and_exit_eq. cbv zeta. cbn [snd].
  destruct (truthy (Args.out args)).
  - destruct (write_error w (text_of (Args.out args))) as [e|];
      rewrite new_events_log2; do 2 eexists; (split; [reflexivity|]);
      cbn [printed_total_tokens printed_max_context_tokens printed_within_limit];
      (split; [reflexivity|]); (split; [reflexivity|]);
      (split; [apply Z.leb_le|]); intros out written [Hin|[]];
      try discriminate.
    injection Hin as _ <-.
    cbn [payload_result within_limit total_tokens].
    split; [reflexivity|apply Z.leb_le].
  - rewrite new_events_log. do 2 eexists. split; [reflexivity|].
    cbn [printed_total_tokens printed_max_context_tokens printed_within_limit].
    split; [reflexivity|]. split; [reflexivity|].
    split; [apply Z.leb_le|]. intros out written [].
Qed.

(** C5.  The emitter always returns, and what it returns is 0 when the
    [within_limit] it printed is true and 2 when it is false, nothing
    else.  That flag is the comparison of the total of the report with the
    limit, so the exit code is 0 exactly when the total is at most the
    limit and 2 exactly when it is above. *)
Theorem exit_code_zero_or_two (result : report) (args : Args.t) (w : World) :
  exists doc rest code,
    new_events w (snd (report_and_exit result args w)) = PrintJson doc :: rest /\
    fst (report_and_exit result args w) = Ok code /\
    printed_within_limit doc = (total_tokens result <=? Args.max_context_tokens args) /\
    (printed_within_limit doc = true -> code = 0) /\
    (printed_within_limit doc = false -> code = 2) /\
    (code = 0 \/ code = 2) /\
    (code = 0 <-> total_tokens result <= Args.max_context_tokens args) /\
    (code = 2 <-> Args.max_context_tokens args < total_tokens result).
Proof.
  rewrite report_and_exit_eq. cbv zeta. cbn [fst snd].
  assert (Hcode : forall b : bool,
             b = (total_tokens result <=? Args.max_context_tokens args) ->
             (b = true -> (if b then 0 else 2) = 0) /\
             (b = false -> (if b then 0 else 2) = 2) /\
             ((if b then 0 else 2) = 0 \/ (if b then 0 else 2) = 2) /\
             ((if b then 0 else 2) = 0 <->
              total_tokens result <= Args.max_context_tokens args) /\
             ((if b then 0 else 2) = 2 <->
              Args.max_context_tokens args < total_tokens result)).
  { intros b Hb.
    destruct (Z.leb_spec (total_tokens result) (Args.max_context_tokens args));
      subst b; repeat split; intros; try discriminate; auto; lia. }
  destruct (truthy (Args.out args)).
  - destruct (write_error w (text_of (Args.out args)));
      rewrite new_events_log2; do 3 eexists;
      (split; [reflexivity|]); (split; [reflexivity|]); (split; [reflexivity|]);
      apply Hcode; reflexivity.
  - rewrite new_events_log. do 3 eexists.
    split; [reflexivity|]. split; [reflexivity|]. split; [reflexivity|].
    apply Hcode. reflexivity.
Qed.

(** C6.  With a destination given and the write failing, the emitter
    prints the warning, writes nothing, and returns the exit code it
    returns in a world where the write succeeds. *)
Theorem write_failure_keeps_exit_code (result : report) (args : Args.t)
    (w : World) (e : string) :
  truthy (Args.out args) = true ->
  write_error w (text_of (Args.out args)) = Some e ->
  let out := text_of (Args.out args) in
  let after := snd (report_and_exit result args w) in
  In (PrintLine ("Warning: Failed to write output to " ++ out ++ ": " ++ e)%string)
     (new_events w after) /\
  (forall out' written, ~ In (FileWritten out' written) (new_events w after)) /\
  (forall w', write_error w' out = None ->
     fst (report_and_exit result args w) = fst (report_and_exit result args w') /\
     exists written,
       In (FileWritten out written) (new_events w' (snd (report_and_exit result args w')))).
Proof.
  intros Hout Hfail. cbv zeta.
  rewrite report_and_exit_eq. cbv zeta. cbn [fst snd].
  rewrite Hout, Hfail, new_events_log2.
  split; [right; left; reflexivity|].
  split.
  - intros out' written [H|[H|[]]]; discriminate.
  - intros w' Hok. rewrite report_and_exit_eq. cbv zeta. cbn [fst snd].
    rewrite Hout, Hok, new_events_log2.
    split; [reflexivity|]. eexists. right; left; reflexivity.
Qed.

(** ** Invocation *)

Section Invocation.

Variable crawl_local_files :
  string -> patterns -> patterns -> Z -> bool -> result crawl_result.
Variable crawl_github_files :
  string -> option string -> Z -> bool -> patterns -> patterns -> result crawl_result.

Local Abbreviation gather := (_gather_files crawl_local_files crawl_github_files).
Local Abbreviation estimate := (estimate_repo_tokens crawl_local_files crawl_github_files).
Local Abbreviation run := (run_estimate_cli crawl_local_files crawl_github_files).
Local Abbreviation program := (main crawl_local_files crawl_github_files).

(** With no source that counts as given, [_gather_files] raises at once. *)
Lemma gather_files_no_source (source_path repo_url : option string)
    (inc exc : patterns) (max_file_size : Z) (github_token : option string)
    (w : World) :
  truthy source_path = false ->
  truthy repo_url = false ->
  gather source_path repo_url inc exc max_file_size github_token w =
  (Raise (ValueError "Either source_path or repo_url must be provided."), w).
Proof.
  intros Hp Hr. unfold _gather_files. rewrite Hp, Hr. reflexivity.
Qed.

(** So does [estimate_repo_tokens]. *)
Lemma estimate_no_source (path repo : option string) (inc exc : patterns)
    (max_file_size : Z) (model : option string) (p : Float64.float)
    (github_token : option string) (w : World) :
  truthy path = false ->
  truthy repo = false ->
  estimate path repo inc exc max_file_size model p github_token w =
  (Raise (ValueError "Either source_path or repo_url must be provided."), w).
Proof.
  intros Hp Hr. unfold estimate_repo_tokens, bind.
  rewrite (gather_files_no_source _ _ _ _ _ _ w Hp Hr). reflexivity.
Qed.

(** And [run_estimate_cli], without looking at the environment. *)
Lemma run_no_source (args : Args.t) (w : World) :
  truthy (Args.dir args) = false ->
  truthy (Args.repo args) = false ->
  run args w =
  (Raise (ValueError "Either source_path or repo_url must be provided."), w).
Proof.
  intros Hd Hr. unfold run_estimate_cli, bind. rewrite Hr.
  unfold ret at 1. cbv beta iota.
  rewrite (estimate_no_source _ _ _ _ _ _ _ _ w Hd Hr).
  reflexivity.
Qed.

(** With a source that counts as given, the local one first, the crawl is
    the first thing that happens. *)
Lemma gather_files_local_first (source_path repo_url : option string)
    (inc exc : patterns) (max_file_size : Z) (github_token : option string)
    (w : World) :
  truthy source_path = true ->
  gather source_path repo_url inc exc max_file_size github_token w =
  (match crawl_local_files (text_of source_path) inc exc max_file_size true with
   | Ok r => Ok (get_files r)
   | Raise e => Raise e
   end, log (CrawlLocal (text_of source_path)) w).
Proof.
  intros Hp. unfold _gather_files, bind, emit, lift, ret. rewrite Hp.
  destruct (crawl_local_files _ _ _ _ _); reflexivity.
Qed.

(** A run that returns has gathered the files, estimated them and gone
    through the report. *)
Lemma run_estimate_cli_reports (args : Args.t) (w w' : World) (exit_code : Z) :
  run args w = (Ok exit_code, w') ->
  exists result w1,
    report_and_exit result args w1 = (Ok exit_code, w') /\
    (exit_code = 0 \/ exit_code = 2).
Proof.
  unfold run_estimate_cli, bind. intros H.
  match type of H with
  | context [match ?m w with (_, _) => _ end] =>
      destruct (m w) as [[tok|e] w0]; [|discriminate H]
  end.
  match type of H with
  | context [match ?m w0 with (_, _) => _ end] =>
      destruct (m w0) as [[result|e] w1]; [|discriminate H]
  end.
  exists result, w1. split; [exact H|].
  rewrite report_and_exit_eq in H. cbv zeta in H. injection H as H _.
  destruct (total_tokens result <=? Args.max_context_tokens args); auto.
Qed.

(** The parser stops a command line with both flags or with none. *)
Lemma main_usage_error (argv : estimate_argv) (w : World) :
  (given_repo argv = None /\ given_dir argv = None) \/
  (given_repo argv <> None /\ given_dir argv <> None) ->
  exists text, program argv w = (Raise (SystemExit 2), log (Stderr text) w).
Proof.
  unfold main, bind, parse_args.
  intros [[Hr Hd]|[Hr Hd]].
  - rewrite Hr, Hd. eexists. reflexivity.
  - destruct (given_repo argv); [|congruence].
    destruct (given_dir argv); [|congruence].
    eexists. reflexivity.
Qed.

(** One flag given, with an empty value: the parser accepts it and the run
    raises. *)
Lemma main_empty_source (argv : estimate_argv) (w : World) :
  (given_repo argv = None /\ given_dir argv <> None) \/
  (given_repo argv <> None /\ given_dir argv = None) ->
  truthy (given_repo argv) = false ->
  truthy (given_dir argv) = false ->
  program argv w =
  (Raise (ValueError "Either source_path or repo_url must be provided."), w).
Proof.
  intros Hone Hr Hd. unfold main, bind.
  assert (Hparse : exists args,
             parse_args argv w = (Ok args, w) /\
             Args.repo args = given_repo argv /\ Args.dir args = given_dir argv).
  { unfold parse_args.
    destruct (given_repo argv), (given_dir argv);
      try (eexists; split; [reflexivity|split; reflexivity]);
      destruct Hone as [[? ?]|[? ?]]; congruence. }
  destruct Hparse as (args & -> & Hrepo & Hdir).
  rewrite run_no_source by congruence. reflexivity.
Qed.



End Invocation.


(** ** End to end *)

(** Two files of 400 and 800 bytes, 3 percent of overhead, a limit of a
    million tokens: 300 tokens, 9 of overhead, 309 in total, within the
    limit, exit status 0. *)
Example scenario_within_limit :
  exists doc,
    main local_stub github_stub (dir_flag 1000000) quiet_world =
    (Raise (SystemExit 0),
     {| environ := environ quiet_world;
        write_error := write_error quiet_world;
        trace := [CrawlLocal "proj"; PrintJson doc] |}) /\
    (printed_sum_file_tokens doc, printed_overhead_tokens doc,
     printed_total_tokens doc, printed_within_limit doc, file_count doc)
    = (300, 9, 309, true, 2).
Proof. eexists. split; vm_compute; reflexivity. Qed.

(** The same with a limit of 100 tokens: over the limit, exit status 2. *)
Example scenario_over_limit :
  exists doc,
    main local_stub github_stub (dir_flag 100) quiet_world =
    (Raise (SystemExit 2),
     {| environ := environ quiet_world;
        write_error := write_error quiet_world;
        trace := [CrawlLocal "proj"; PrintJson doc] |}) /\
    (printed_total_tokens doc, printed_within_limit doc) = (309, false).
Proof. eexists. split; vm_compute; reflexivity. Qed.

(** ** The overhead *)

(** The aggregation of the scenario: 400 and 800 bytes of text at 3
    percent. *)
Example scenario_two_files :
  exists r, estimate_files two_files (Some "gpt-5") three = Ok r /\
            figures r = (300, 9, 309) /\
            map size_bytes (files r) = [400; 800].
Proof. eexists. split; [vm_compute; reflexivity|]. split; reflexivity. Qed.

(** C2 as stated fails: at 29 percent of 100 tokens the quotient
    [29.0 / 100.0] is the double just below 0.29, the product is the double
    just below 29, and [int] truncates it to 28, while the exact floor of
    [100 * 29 / 100] is 29. *)
Lemma overhead_below_exact_floor :
  Float64.leb zero twenty_nine = true /\
  exists r, estimate_files one_file_400 None twenty_nine = Ok r /\
            sum_file_tokens r = 100 /\
            overhead_tokens r = 28 /\
            exact_overhead (sum_file_tokens r) twenty_nine = 29 /\
            overhead_tokens r <> exact_overhead (sum_file_tokens r) twenty_nine.
Proof.
  split; [reflexivity|].
  eexists. split; [vm_compute; reflexivity|].
  cbn [sum_file_tokens overhead_tokens].
  repeat split; try reflexivity. vm_compute. discriminate.
Qed.

(** Whenever the aggregation returns, [sum_file_tokens] is the sum of the
    estimates, [total_tokens] is [sum_file_tokens] plus [overhead_tokens],
    and [overhead_tokens] is the truncation of the double-precision
    product of the sum by [p / 100.0]; it is the exact floor of
    [sum_file_tokens * p / 100] whenever that product is non-negative and
    carries no rounding error. *)
Lemma overhead_truncates_double_product (items : files_dict)
    (model : option string) (p : Float64.float) (r : report) :
  estimate_files items model p = Ok r ->
  sum_file_tokens r = total_of model items /\
  total_tokens r = sum_file_tokens r + overhead_tokens r /\
  exists s,
    Float64.of_int (sum_file_tokens r) = Ok s /\
    let product := Float64.mul s (Float64.truediv p hundred) in
    Float64.to_int product = Ok (overhead_tokens r) /\
    (Float64.is_nonneg_finite product = true ->
     Float64.to_Q product ==
       inject_Z (sum_file_tokens r) * Float64.to_Q p / inject_Z 100 ->
     overhead_tokens r = exact_overhead (sum_file_tokens r) p).
Proof.
  rewrite estimate_files_eq.
  destruct (forallb item_encodable items); [|discriminate].
  destruct (apply_overhead (total_of model items) p) as [o|] eqn:Ho; [|discriminate].
  intros H; injection H as <-.
  cbn [sum_file_tokens total_tokens overhead_tokens].
  split; [reflexivity|]. split; [reflexivity|].
  unfold apply_overhead in Ho.
  destruct (Float64.of_int (total_of model items)) as [s|]; [|discriminate].
  cbn [rbind] in Ho. exists s. split; [reflexivity|]. cbv zeta.
  split; [exact Ho|].
  intros Hpos Hexact. rewrite (to_int_floor _ Hpos) in Ho.
  injection Ho as <-. unfold exact_overhead. apply Qfloor_comp. exact Hexact.
Qed.

(** C2, amended.  For files that can be encoded, a sum below [2 ^ 53] and
    a non-negative double [p] with [sum * p / 100] at most [2 ^ 50], the
    aggregation returns a report in which [sum_file_tokens] is the sum of
    the estimates, [total_tokens] is [sum_file_tokens] plus
    [overhead_tokens], and [overhead_tokens], the truncated double product
    of the sum by [p / 100.0], is the exact floor of
    [sum_file_tokens * p / 100] or one of its two neighbours. *)
Theorem overhead_within_one_of_floor (items : files_dict)
    (model : option string) (p : Float64.float) :
  forallb item_encodable items = true ->
  Float64.is_nonneg_finite p = true ->
  valid_binary Float64.prec Float64.emax p = true ->
  total_of model items < 2 ^ 53 ->
  (inject_Z (total_of model items) * Float64.to_Q p / inject_Z 100
   <= inject_Z (2 ^ 50))%Q ->
  exists r,
    estimate_files items model p = Ok r /\
    sum_file_tokens r = total_of model items /\
    total_tokens r = sum_file_tokens r + overhead_tokens r /\
    apply_overhead (sum_file_tokens r) p = Ok (overhead_tokens r) /\
    exact_overhead (sum_file_tokens r) p - 1 <= overhead_tokens r
      <= exact_overhead (sum_file_tokens r) p + 1.
Proof.
  intros Hall Hp Hvalid Hsum Hbound.
  pose proof (total_of_nonneg model items) as H0.
  destruct (apply_overhead_within_one (total_of model items) p
              (conj H0 Hsum) Hp Hvalid Hbound) as (o & Ho & Hclose).
  rewrite estimate_files_eq, Hall, Ho.
  eexists. split; [reflexivity|].
  cbn [sum_file_tokens total_tokens overhead_tokens].
  repeat split; try assumption; lia.
Qed.

(** ** The statements at concrete inputs *)

(** Half of 300 tokens: every step is exact and the overhead is 150. *)
Example overhead_at_fifty_percent :
  exists r,
    estimate_files two_files None fifty = Ok r /\
    overhead_tokens r = 150 /\
    exact_overhead (sum_file_tokens r) fifty = 150.
Proof.
  eexists. split; [vm_compute; reflexivity|].
  destruct (overhead_truncates_double_product two_files None fifty _
              ltac:(vm_compute; reflexivity)) as (_ & _ & s & Hs & _ & Hexact).
  vm_compute in Hs. injection Hs as <-.
  split; [reflexivity|].
  symmetry. apply Hexact; vm_compute; reflexivity.
Qed.

(** C8 at three accented letters. *)
Lemma count_tokens_total_nonneg_accented :
  char_count (Some three_e_acute) < 2 ^ 63 /\
  exists n : Z,
    count_tokens_in_doubles (Some three_e_acute) None = Ok n /\ 0 <= n /\
    (char_count (Some three_e_acute) < 2 ^ 53 -> n = count_tokens (Some three_e_acute) None).
Proof.
  split; [reflexivity|].
  apply (count_tokens_total_nonneg (Some three_e_acute) None). reflexivity.
Defined.


(** C7 at the two files of the scenario, taken in either order. *)
Lemma aggregation_permutation_invariant_swap :
  Permutation two_files (rev two_files) /\
  match estimate_files two_files None three,
        estimate_files (rev two_files) None three with
  | Ok r, Ok r' =>
      sum_file_tokens r = sum_file_tokens r' /\
      overhead_tokens r = overhead_tokens r' /\
      total_tokens r = total_tokens r' /\
      forall args w,
        fst (report_and_exit r args w) = fst (report_and_exit r' args w) /\
        (total_tokens r <=? Args.max_context_tokens args) =
        (total_tokens r' <=? Args.max_context_tokens args)
  | Raise e, Raise e' => e = e'
  | _, _ => False
  end.
Proof.
  split.
  - apply perm_swap.
  - apply (aggregation_permutation_invariant two_files (rev two_files) None three).
    apply perm_swap.
Defined.

(** C6 at a report within its limit and a destination that cannot be
    written. *)
Lemma write_failure_keeps_exit_code_readonly :
  truthy (Args.out (sample_args 1000 (Some "out.json"))) = true /\
  write_error readonly_world "out.json" = Some "Permission denied" /\
  fst (report_and_exit sample_report (sample_args 1000 (Some "out.json")) readonly_world)
  = fst (report_and_exit sample_report (sample_args 1000 (Some "out.json")) quiet_world).
Proof.
  split; [reflexivity|]. split; [reflexivity|].
  apply (write_failure_keeps_exit_code sample_report
           (sample_args 1000 (Some "out.json")) readonly_world "Permission denied"
           eq_refl eq_refl).
  reflexivity.
Defined.


(** C2, amended, at the two files of the scenario and 3 percent. *)
Lemma overhead_within_one_of_floor_scenario :
  forallb item_encodable two_files = true /\
  Float64.is_nonneg_finite three = true /\
  valid_binary Float64.prec Float64.emax three = true /\
  total_of (Some "gpt-5") two_files < 2 ^ 53 /\
  (inject_Z (total_of (Some "gpt-5") two_files) * Float64.to_Q three / inject_Z 100
   <= inject_Z (2 ^ 50))%Q /\
  exists r,
    estimate_files two_files (Some "gpt-5") three = Ok r /\
    sum_file_tokens r = total_of (Some "gpt-5") two_files /\
    total_tokens r = sum_file_tokens r + overhead_tokens r /\
    apply_overhead (sum_file_tokens r) three = Ok (overhead_tokens r) /\
    exact_overhead (sum_file_tokens r) three - 1 <= overhead_tokens r
      <= exact_overhead (sum_file_tokens r) three + 1.
Proof.
  assert (H1 : forallb item_encodable two_files = true) by (vm_compute; reflexivity).
  assert (H2 : total_of (Some "gpt-5") two_files < 2 ^ 53) by (vm_compute; reflexivity).
  assert (H3 : (inject_Z (total_of (Some "gpt-5") two_files) * Float64.to_Q three
                / inject_Z 100 <= inject_Z (2 ^ 50))%Q)
    by (vm_compute; discriminate).
  repeat (split; [first [assumption | reflexivity]|]).
  exact (overhead_within_one_of_floor two_files (Some "gpt-5") three
           H1 eq_refl eq_refl H2 H3).
Defined.

(** * Further properties of the code *)

(** ** The estimate of one text *)

(** X1.  The estimate brackets the number of characters: a text of [n]
    characters gets [t] tokens with [4 t - 3 <= n <= 4 t], so the estimate
    is 0 exactly for the empty text and for [None]. *)
Theorem count_tokens_brackets_length (text : option pystr) (model : option string) :
  4 * count_tokens text model - 3 <= char_count text <= 4 * count_tokens text model /\
  (count_tokens text model = 0 <-> char_count text = 0).
Proof.
  rewrite count_tokens_characters. fold (char_count text).
  assert (H0 : 0 <= char_count text).
  { destruct text as [s|]; [apply len_nonneg|cbn; lia]. }
  pose proof (Z.div_mod (char_count text + 3) 4 ltac:(lia)) as Hdm.
  pose proof (Z.mod_pos_bound (char_count text + 3) 4 ltac:(lia)) as Hm.
  lia.
Qed.

(** X2.  Appending text never lowers the estimate, and cutting a text in
    two pieces costs at most one token more than estimating it whole. *)
Theorem count_tokens_of_concatenation (a b : pystr) (model : option string) :
  count_tokens (Some a) model <= count_tokens (Some (a ++ b)) model /\
  count_tokens (Some (a ++ b)) model
    <= count_tokens (Some a) model + count_tokens (Some b) model
    <= count_tokens (Some (a ++ b)) model + 1.
Proof.
  rewrite !count_tokens_characters, len_app.
  pose proof (len_nonneg a) as Ha. pose proof (len_nonneg b) as Hb.
  pose proof (Z.div_mod (len a + 3) 4 ltac:(lia)).
  pose proof (Z.mod_pos_bound (len a + 3) 4 ltac:(lia)).
  pose proof (Z.div_mod (len b + 3) 4 ltac:(lia)).
  pose proof (Z.mod_pos_bound (len b + 3) 4 ltac:(lia)).
  pose proof (Z.div_mod (len a + len b + 3) 4 ltac:(lia)).
  pose proof (Z.mod_pos_bound (len a + len b + 3) 4 ltac:(lia)).
  lia.
Qed.

(** X3.  The float arithmetic of the source costs nothing: for a text of
    fewer than [2 ^ 53] characters, [math.ceil(len(text) / 4)] carried out
    in doubles returns exactly the estimate, the ceiling of a quarter of
    the length. *)
Theorem heuristic_exact_in_doubles (text : pystr) :
  len text < 2 ^ 53 ->
  approx_tokens_in_doubles (len text) = Ok (_heuristic_token_count text).
Proof.
  intros Hlen. pose proof (len_nonneg text) as H0.
  rewrite (approx_tokens_in_doubles_exact (len text) (conj H0 Hlen)).
  rewrite heuristic_counts_characters, math_ceil_div_4. reflexivity.
Qed.

(** ** The report *)

(** X4.  In every report the two figures of an entry are tied: the tokens
    of a file are at most a quarter of its bytes, rounded up, and at least
    a sixteenth of them. *)
Theorem tokens_bounded_by_size_bytes (items : files_dict) (model : option string)
    (p : Float64.float) (r : report) :
  estimate_files items model p = Ok r ->
  Forall (fun entry => 4 * tokens entry - 3 <= size_bytes entry <= 16 * tokens entry)
    (files r).
Proof.
  rewrite estimate_files_eq.
  destruct (forallb item_encodable items) eqn:Hall; [|discriminate].
  destruct (apply_overhead (total_of model items) p) as [o|e]; [|discriminate].
  intros H; injection H as <-. cbn [files].
  apply Forall_forall. intros entry Hin.
  apply in_map_iff in Hin as ([file_path content] & <- & Hin).
  rewrite forallb_forall in Hall. specialize (Hall _ Hin).
  unfold entry_of, utf8_size. cbn [fst snd tokens size_bytes].
  rewrite count_tokens_characters.
  destruct content as [s|].
  - unfold item_encodable in Hall. cbn [snd] in Hall.
    destruct (utf8_encode_ok s Hall) as [bs Hbs].
    cbn [encoded_size]. rewrite Hbs. cbn [rbind].
    destruct (utf8_encode_size s bs Hbs) as [Hb _].
    pose proof (len_nonneg s).
    pose proof (Z.div_mod (len s + 3) 4 ltac:(lia)).
    pose proof (Z.mod_pos_bound (len s + 3) 4 ltac:(lia)).
    lia.
  - cbn. lia.
Qed.

(** X5.  A report is consistent with its own list: [sum_file_tokens] is the
    sum of the [tokens] of the entries, the entries come in the order of
    the mapping, one per path, and the total is the sum plus the
    overhead. *)
Theorem report_totals_its_entries (items : files_dict) (model : option string)
    (p : Float64.float) (r : report) :
  estimate_files items model p = Ok r ->
  sum_file_tokens r = fold_right Z.add 0 (map tokens (files r)) /\
  map path (files r) = map fst items /\
  total_tokens r = sum_file_tokens r + overhead_tokens r.
Proof.
  rewrite estimate_files_eq.
  destruct (forallb item_encodable items); [|discriminate].
  destruct (apply_overhead (total_of model items) p) as [o|e]; [|discriminate].
  intros H; injection H as <-. cbn [sum_file_tokens files total_tokens overhead_tokens].
  split; [|split; [|reflexivity]].
  - unfold total_of. rewrite map_map. reflexivity.
  - rewrite map_map. reflexivity.
Qed.

Lemma apply_overhead_never_unicode (n : Z) (p : Float64.float) :
  apply_overhead n p <> Raise UnicodeEncodeError.
Proof.
  unfold apply_overhead, Float64.of_int.
  destruct (binary_normalize Float64.prec Float64.emax n 0 false) as [s|s| |s m e];
    cbn [rbind]; try discriminate;
    destruct (Float64.mul _ _); discriminate.
Qed.

(** X6.  The estimate fails with [UnicodeEncodeError] exactly when the
    content of some file holds a surrogate code point: one such file is
    enough, wherever it stands, and nothing else raises this error. *)
Theorem unicode_error_iff_surrogate (items : files_dict) (model : option string)
    (p : Float64.float) :
  estimate_files items model p = Raise UnicodeEncodeError <->
  exists file_path text,
    In (file_path, Some text) items /\ existsb is_surrogate text = true.
Proof.
  rewrite estimate_files_eq.
  destruct (forallb item_encodable items) eqn:Hall.
  - split.
    + pose proof (apply_overhead_never_unicode (total_of model items) p) as Hne.
      destruct (apply_overhead (total_of model items) p); [discriminate|].
      intros H. congruence.
    + intros (file_path & text & Hin & Hs).
      rewrite forallb_forall in Hall. specialize (Hall _ Hin).
      unfold item_encodable, encodable in Hall. cbn [snd] in Hall.
      apply existsb_exists in Hs as (c & Hc & Hsur).
      rewrite forallb_forall in Hall. specialize (Hall c Hc).
      rewrite Hsur in Hall. discriminate.
  - split; [intros _|reflexivity].
    assert (Hex : existsb (fun item => negb (item_encodable item)) items = true).
    { clear -Hall. induction items as [|a l IH]; [discriminate|].
      cbn [forallb existsb] in *. destruct (item_encodable a); cbn [negb andb orb] in *.
      - apply IH. exact Hall.
      - reflexivity. }
    apply existsb_exists in Hex as ([file_path content] & Hin & Hbad).
    unfold item_encodable in Hbad. cbn [snd] in Hbad.
    destruct content as [text|]; [|discriminate].
    exists file_path, text. split; [exact Hin|].
    apply negb_true_iff in Hbad. unfold encodable in Hbad.
    clear -Hbad. induction text as [|c s IH]; [discriminate|].
    cbn [forallb existsb] in *. destruct (is_surrogate c); cbn [negb andb orb] in *.
    + reflexivity.
    + apply IH. exact Hbad.
Qed.

(** ** The sign of the overhead *)

(** Rounding keeps the sign. *)
Lemma binary_round_aux_sign (sx : bool) (mx ex : Z) (lx : location) (t : Q) :
  0 <= mx -> located t mx lx ->
  has_sign sx (binary_round_aux Float64.prec Float64.emax sx mx ex lx) = true.
Proof.
  intros Hmx Hloc.
  destruct (shr_fexp_located mx ex lx t Hmx Hloc) as [_ [Hm0 Hrec]].
  unfold binary_round_aux.
  destruct (shr_fexp Float64.prec Float64.emax mx ex lx) as [mrs' e'].
  cbn [fst snd] in Hm0, Hrec.
  destruct (round_nearest_even_located _ _ _ Hrec) as ([Hm1 _] & _).
  set (m1 := round_nearest_even (shr_m mrs') (loc_of_shr_record mrs')) in *.
  assert (H1 : 0 <= m1) by lia.
  destruct (shr_fexp_located m1 e' loc_Exact (inject_Z m1) H1
              ltac:(constructor; reflexivity)) as [_ [Hm2 _]].
  destruct (shr_fexp Float64.prec Float64.emax m1 e' loc_Exact) as [mrs'' e''].
  cbn [fst snd] in Hm2.
  destruct (shr_m mrs'') as [|m2|m2]; [| |lia].
  - reflexivity.
  - destruct (e'' <=? Float64.emax - Float64.prec); cbn; apply eqb_reflx.
Qed.

Lemma nonneg_finite_has_sign (f : Float64.float) :
  Float64.is_nonneg_finite f = true -> has_sign false f = true.
Proof. destruct f as [s|s| |[] m e]; try discriminate; reflexivity. Qed.

(** The conversion of a natural number gives a zero or a positive number,
    when it gives a float at all. *)
Lemma of_int_sign (n : Z) (f : Float64.float) :
  0 <= n -> Float64.of_int n = Ok f -> Float64.is_nonneg_finite f = true.
Proof.
  intros Hn. unfold Float64.of_int, binary_normalize.
  destruct n as [|m|m]; [| |lia].
  - intros H; injection H as <-. reflexivity.
  - unfold binary_round.
    destruct (shl_align m 0 (fexp Float64.prec Float64.emax (Z.pos (digits2_pos m) + 0)))
      as [mz ez].
    pose proof (binary_round_aux_sign false (Zpos mz) ez loc_Exact (inject_Z (Zpos mz))
                  ltac:(lia) ltac:(constructor; reflexivity)) as Hs.
    destruct (binary_round_aux Float64.prec Float64.emax false (Zpos mz) ez loc_Exact)
      as [s|s| |s m' e']; try discriminate.
    + intros H; injection H as <-. reflexivity.
    + intros H; injection H as <-. destruct s; [discriminate|reflexivity].
Qed.

Lemma truediv_hundred_sign (s : bool) (p : Float64.float) :
  has_sign s p = true -> has_sign s (Float64.truediv p hundred) = true.
Proof.
  destruct p as [s'|s'| |s' mp ep]; cbn [has_sign]; try discriminate.
  - intros _. reflexivity.
  - intros H. cbn. rewrite xorb_false_r. exact H.
  - intros H. apply eqb_prop in H. subst s'.
    unfold Float64.truediv, hundred, SFdiv.
    rewrite div_core. cbv zeta. rewrite xorb_false_r.
    set (d := 7036874417766400).
    set (m' := Zpos mp * 2 ^ _).
    assert (Hd : 0 < d) by (unfold d; lia).
    assert (Hm' : 0 <= m').
    { unfold m'. apply Z.mul_nonneg_nonneg; [lia|]. apply Z.pow_nonneg. lia. }
    apply (binary_round_aux_sign s (m' / d) _ _
             (inject_Z (m' / d * d + m' mod d) / inject_Z d)%Q).
    + apply Z.div_pos; lia.
    + apply new_location_located; [exact Hd|]. apply Z.mod_pos_bound. exact Hd.
Qed.

Lemma mul_sign (sx sy : bool) (x y : Float64.float) :
  has_sign sx x = true -> has_sign sy y = true ->
  Float64.mul x y = S754_nan \/ has_sign (xorb sx sy) (Float64.mul x y) = true.
Proof.
  destruct x as [s1|s1| |s1 m1 e1]; cbn [has_sign]; try discriminate;
    destruct y as [s2|s2| |s2 m2 e2]; cbn [has_sign]; try discriminate;
    intros H1 H2; try (left; reflexivity); try (right; reflexivity).
  - apply eqb_prop in H1, H2; subst s1 s2. right. cbn. apply eqb_reflx.
  - apply eqb_prop in H1, H2; subst s1 s2. right. cbn. apply eqb_reflx.
  - apply eqb_prop in H1, H2; subst s1 s2. right. cbn. apply eqb_reflx.
  - apply eqb_prop in H1, H2; subst s1 s2. right.
    unfold Float64.mul, SFmul.
    apply (binary_round_aux_sign _ _ _ _ (inject_Z (Zpos (m1 * m2)))); [lia|].
    constructor. reflexivity.
Qed.

Lemma to_int_sign (s : bool) (x : Float64.float) (o : Z) :
  has_sign s x = true -> Float64.to_int x = Ok o ->
  if s then o <= 0 else 0 <= o.
Proof.
  destruct x as [s'|s'| |s' m e]; cbn [has_sign Float64.to_int]; try discriminate.
  - intros _ H; injection H as <-. destruct s; lia.
  - intros Hs H; injection H as <-. apply eqb_prop in Hs. subst s'.
    assert (0 <= (if 0 <=? e then Z.shiftl (Zpos m) e else Z.shiftr (Zpos m) (- e))).
    { destruct (0 <=? e).
      - apply Z.shiftl_nonneg. lia.
      - apply Z.shiftr_nonneg. lia. }
    destruct s; cbn [cond_Zopp]; lia.
Qed.

(** The sign of the overhead is that of the percentage. *)
Lemma apply_overhead_sign (s : bool) (n : Z) (p : Float64.float) (o : Z) :
  0 <= n -> has_sign s p = true -> apply_overhead n p = Ok o ->
  if s then o <= 0 else 0 <= o.
Proof.
  intros Hn Hp. unfold apply_overhead.
  destruct (Float64.of_int n) as [f|e] eqn:Ef; [|discriminate].
  cbn [rbind]. intros Ho.
  pose proof (nonneg_finite_has_sign f (of_int_sign n f Hn Ef)) as Hf.
  destruct (mul_sign false s f _ Hf (truediv_hundred_sign s p Hp)) as [Hnan|Hs].
  - rewrite Hnan in Ho. discriminate.
  - exact (to_int_sign _ _ _ Hs Ho).
Qed.

(** Infinities and NaN as a percentage never give an overhead. *)
Lemma apply_overhead_not_finite (n : Z) (p : Float64.float) :
  0 <= n -> is_finite p = false ->
  (exists msg, apply_overhead n p = Raise (OverflowError msg)) \/
  (exists msg, apply_overhead n p = Raise (ValueError msg)).
Proof.
  intros Hn Hp. unfold apply_overhead.
  destruct (Float64.of_int n) as [f|e] eqn:Ef.
  - cbn [rbind]. pose proof (of_int_sign n f Hn Ef) as Hf.
    destruct p as [s|s| |s m e]; try discriminate Hp.
    + destruct f as [sf|sf| |[] mf ef]; try discriminate Hf.
      * right. eexists. reflexivity.
      * left. eexists. reflexivity.
    + right. destruct f; eexists; reflexivity.
  - left. unfold Float64.of_int in Ef.
    destruct (binary_normalize Float64.prec Float64.emax n 0 false); try discriminate Ef.
    injection Ef as <-. eexists. reflexivity.
Qed.

(** X7.  The percentage is not checked, and the overhead takes its sign: a
    percentage that is zero or positive never lowers the total below the
    sum of the files, one that is zero or negative never raises it above
    (a zero one, of either sign, leaves the total equal to the sum). *)
Theorem overhead_follows_sign_of_percent (s : bool) (items : files_dict)
    (model : option string) (p : Float64.float) (r : report) :
  has_sign s p = true ->
  estimate_files items model p = Ok r ->
  if s then overhead_tokens r <= 0 /\ total_tokens r <= sum_file_tokens r
  else 0 <= overhead_tokens r /\ sum_file_tokens r <= total_tokens r.
Proof.
  intros Hs. rewrite estimate_files_eq.
  destruct (forallb item_encodable items); [|discriminate].
  destruct (apply_overhead (total_of model items) p) as [o|e] eqn:Eo; [|discriminate].
  intros H; injection H as <-. cbn [sum_file_tokens total_tokens overhead_tokens].
  pose proof (apply_overhead_sign s _ p o (total_of_nonneg model items) Hs Eo) as Ho.
  destruct s; lia.
Qed.

(** X8.  With an infinite or NaN percentage (which [float] accepts on the
    command line) no report is ever produced: whatever the files, the
    estimate raises, [OverflowError] or [ValueError] from the conversion to
    [int] unless a content already failed to encode. *)
Theorem non_finite_percent_always_raises (items : files_dict) (model : option string)
    (p : Float64.float) :
  is_finite p = false ->
  estimate_files items model p = Raise UnicodeEncodeError \/
  (exists msg, estimate_files items model p = Raise (OverflowError msg)) \/
  (exists msg, estimate_files items model p = Raise (ValueError msg)).
Proof.
  intros Hp. rewrite estimate_files_eq.
  destruct (forallb item_encodable items); [|left; reflexivity].
  right.
  destruct (apply_overhead_not_finite (total_of model items) p
              (total_of_nonneg model items) Hp) as [[msg ->]|[msg ->]].
  - left. exists msg. reflexivity.
  - right. exists msg. reflexivity.
Qed.

(** ** Runs of the command *)

Lemma new_events_app (w w' : World) (evs : list io_event) :
  trace w' = trace w ++ evs -> new_events w w' = evs.
Proof. intros H. unfold new_events. rewrite H. apply skipn_length_app. Qed.

Lemma trace_log (ev : io_event) (w : World) : trace (log ev w) = trace w ++ [ev].
Proof. reflexivity. Qed.

(** The events of [report_and_exit]: the summary, then output only. *)
Lemma report_and_exit_events (result : report) (args : Args.t) (w : World) :
  exists doc tail,
    trace (snd (report_and_exit result args w)) = trace w ++ PrintJson doc :: tail /\
    forallb is_output tail = true.
Proof.
  rewrite report_and_exit_eq. cbn [snd].
  destruct (truthy (Args.out args)).
  - destruct (write_error w (text_of (Args.out args))).
    + eexists; eexists. rewrite !trace_log, <- app_assoc. cbn [app].
      split; reflexivity.
    + eexists; eexists. rewrite !trace_log, <- app_assoc. cbn [app].
      split; reflexivity.
  - eexists; exists []. rewrite trace_log. split; reflexivity.
Qed.

Section Coverage.

Variable crawl_local_files :
  forall (directory : string) (include_patterns exclude_patterns : patterns)
         (max_file_size : Z) (use_relative_paths : bool), result crawl_result.
Variable crawl_github_files :
  forall (repo_url : string) (token : option string) (max_file_size : Z)
         (use_relative_paths : bool) (include_patterns exclude_patterns : patterns),
    result crawl_result.

Local Abbreviation run := (run_estimate_cli crawl_local_files crawl_github_files).

(** [run_estimate_cli] step by step: the token, the crawl, the estimate,
    the report. *)
Lemma run_estimate_cli_eq (args : Args.t) (w : World) :
  let reads := truthy (Args.repo args) && negb (truthy (Args.token args)) in
  let w0 := if reads then log (EnvironGet "GITHUB_TOKEN") w else w in
  let github_token :=
    if truthy (Args.repo args) then token_or_environ (Args.token args) w else None in
  let finish (w1 : World) (listing : result crawl_result) :=
    match listing with
    | Raise e => (Raise e, w1)
    | Ok found =>
        match estimate_files (get_files found) (Args.model args)
                (Args.overhead_percent args) with
        | Raise e => (Raise e, w1)
        | Ok result => report_and_exit result args w1
        end
    end in
  run args w =
  if truthy (Args.dir args) then
    finish (log (CrawlLocal (text_of (Args.dir args))) w0)
      (crawl_local_files (text_of (Args.dir args)) (pattern_set (Args.include args))
         (pattern_set (Args.exclude args)) (Args.max_size args) true)
  else if truthy (Args.repo args) then
    finish (log (CrawlGithub (text_of (Args.repo args)) github_token) w0)
      (crawl_github_files (text_of (Args.repo args)) github_token (Args.max_size args)
         true (pattern_set (Args.include args)) (pattern_set (Args.exclude args)))
  else (Raise (ValueError "Either source_path or repo_url must be provided."), w0).
Proof.
  cbv zeta. unfold run_estimate_cli, estimate_repo_tokens, _gather_files, token_or_environ.
  unfold bind at 1.
  destruct (truthy (Args.repo args)) eqn:Hrepo; cbn [andb negb].
  - destruct (truthy (Args.token args)) eqn:Htok; cbn [negb];
      unfold ret, environ_get;
      (destruct (truthy (Args.dir args));
       [ unfold bind, emit, lift, ret;
         destruct (crawl_local_files _ _ _ _ _) as [found|e]; [|reflexivity];
         destruct (estimate_files _ _ _); reflexivity
       | unfold bind, emit, lift, ret; cbn [environ log];
         destruct (crawl_github_files _ _ _ _ _ _) as [found|e]; [|reflexivity];
         destruct (estimate_files _ _ _); reflexivity ]).
  - unfold ret.
    destruct (truthy (Args.dir args)).
    + unfold bind, emit, lift, ret.
      destruct (crawl_local_files _ _ _ _ _) as [found|e]; [|reflexivity].
      destruct (estimate_files _ _ _); reflexivity.
    + reflexivity.
Qed.

(** What a run adds to the trace once its crawl is logged in [w1]: output
    only, and none when it fails. *)
Lemma finish_events (args : Args.t) (w w1 : World) (pre : list io_event)
    (listing : result crawl_result) :
  trace w1 = trace w ++ pre ->
  let outcome :=
    match listing with
    | Raise e => (Raise e, w1)
    | Ok found =>
        match estimate_files (get_files found) (Args.model args)
                (Args.overhead_percent args) with
        | Raise e => (Raise e, w1)
        | Ok result => report_and_exit result args w1
        end
    end in
  exists rest,
    new_events w (snd outcome) = pre ++ rest /\
    forallb is_output rest = true /\
    (forall e, fst outcome = Raise e -> rest = []).
Proof.
  intros Hw1. cbv zeta.
  assert (Hnone : exists rest, new_events w w1 = pre ++ rest /\
                    forallb is_output rest = true /\ rest = []).
  { exists []. rewrite app_nil_r. split; [|split; reflexivity].
    apply new_events_app. exact Hw1. }
  destruct listing as [found|e].
  - destruct (estimate_files _ _ _) as [result|e].
    + destruct (report_and_exit_events result args w1) as (doc & tail & Htr & Hout).
      exists (PrintJson doc :: tail). split; [|split].
      * apply new_events_app. rewrite Htr, Hw1, <- app_assoc. reflexivity.
      * cbn [forallb is_output]. exact Hout.
      * rewrite report_and_exit_eq. cbn [fst]. discriminate.
    + destruct Hnone as (rest & H1 & H2 & H3). exists rest. cbn [fst snd]. repeat split; auto.
  - destruct Hnone as (rest & H1 & H2 & H3). exists rest. cbn [fst snd]. repeat split; auto.
Qed.

(** X9.  A local path shadows the repository: when [source_path] is not
    empty, [_gather_files] crawls it, once, and gives the same result
    whatever the repository URL, the token and the GitHub adapter are. *)
Theorem local_path_shadows_repository
    (other_github :
       forall (repo_url : string) (token : option string) (max_file_size : Z)
              (use_relative_paths : bool) (include_patterns exclude_patterns : patterns),
         result crawl_result)
    (source_path repo_url repo_url' : option string) (inc exc : patterns)
    (max_file_size : Z) (token token' : option string) (w : World) :
  truthy source_path = true ->
  _gather_files crawl_local_files crawl_github_files source_path repo_url inc exc
    max_file_size token w =
  _gather_files crawl_local_files other_github source_path repo_url' inc exc
    max_file_size token' w /\
  new_events w (snd (_gather_files crawl_local_files crawl_github_files source_path
                       repo_url inc exc max_file_size token w)) =
  [CrawlLocal (text_of source_path)].
Proof.
  intros Hpath. unfold _gather_files. rewrite Hpath. split; [reflexivity|].
  unfold bind, emit, lift, ret.
  destruct (crawl_local_files _ _ _ _ _); cbn [snd]; apply new_events_log.
Qed.

(** X10.  A run on a directory alone does one thing before it prints: it
    crawls that directory, once.  It never reads the environment and never
    calls the GitHub adapter; everything after the crawl is output. *)
Theorem dir_run_crawls_once_and_stays_local (args : Args.t) (w : World) :
  truthy (Args.dir args) = true ->
  truthy (Args.repo args) = false ->
  exists rest,
    new_events w (snd (run args w)) = CrawlLocal (text_of (Args.dir args)) :: rest /\
    forallb is_output rest = true.
Proof.
  intros Hdir Hrepo. rewrite run_estimate_cli_eq. cbv zeta.
  rewrite Hdir, Hrepo. cbn [andb].
  destruct (finish_events args w (log (CrawlLocal (text_of (Args.dir args))) w)
              [CrawlLocal (text_of (Args.dir args))]
              (crawl_local_files (text_of (Args.dir args)) (pattern_set (Args.include args))
                 (pattern_set (Args.exclude args)) (Args.max_size args) true)
              (trace_log _ _)) as (rest & Hev & Hout & _).
  exists rest. split; [exact Hev|exact Hout].
Qed.

(** X11.  A run on a repository resolves the token before the crawl: a
    non-empty [--token] is passed on as it is and the environment is not
    read; otherwise [GITHUB_TOKEN] is read, once, and its value (possibly
    [None]) is what the GitHub adapter receives.  Everything after the
    crawl is output. *)
Theorem repo_run_resolves_token (args : Args.t) (w : World) :
  truthy (Args.dir args) = false ->
  truthy (Args.repo args) = true ->
  exists rest,
    new_events w (snd (run args w)) =
      (if truthy (Args.token args) then [] else [EnvironGet "GITHUB_TOKEN"])
      ++ CrawlGithub (text_of (Args.repo args)) (token_or_environ (Args.token args) w)
      :: rest /\
    forallb is_output rest = true.
Proof.
  intros Hdir Hrepo. rewrite run_estimate_cli_eq. cbv zeta.
  rewrite Hdir, Hrepo. cbn [andb].
  set (tok := token_or_environ (Args.token args) w).
  set (pre := (if truthy (Args.token args) then [] else [EnvironGet "GITHUB_TOKEN"])
              ++ [CrawlGithub (text_of (Args.repo args)) tok]).
  destruct (finish_events args w
              (log (CrawlGithub (text_of (Args.repo args)) tok)
                 (if negb (truthy (Args.token args))
                  then log (EnvironGet "GITHUB_TOKEN") w else w))
              pre
              (crawl_github_files (text_of (Args.repo args)) tok (Args.max_size args)
                 true (pattern_set (Args.include args)) (pattern_set (Args.exclude args))))
    as (rest & Hev & Hout & _).
  { unfold pre. destruct (truthy (Args.token args)); cbn [negb].
    - rewrite trace_log. reflexivity.
    - rewrite !trace_log, <- app_assoc. reflexivity. }
  exists rest. split; [|exact Hout].
  rewrite Hev. unfold pre. rewrite <- app_assoc. reflexivity.
Qed.

(** X12.  A run that fails has printed and written nothing: every
    exception of [run_estimate_cli] comes before the report. *)
Theorem failed_run_prints_nothing (args : Args.t) (w : World) (e : exn) :
  fst (run args w) = Raise e ->
  existsb is_output (new_events w (snd (run args w))) = false.
Proof.
  rewrite run_estimate_cli_eq. cbv zeta.
  set (w0 := if truthy (Args.repo args) && negb (truthy (Args.token args))
             then log (EnvironGet "GITHUB_TOKEN") w else w).
  assert (Hw0 : exists pre0, trace w0 = trace w ++ pre0 /\ existsb is_output pre0 = false).
  { unfold w0. destruct (truthy (Args.repo args) && negb (truthy (Args.token args))).
    - exists [EnvironGet "GITHUB_TOKEN"]. split; reflexivity.
    - exists []. rewrite app_nil_r. split; reflexivity. }
  destruct Hw0 as (pre0 & Hw0 & Hpre0).
  assert (Hstep : forall ev listing,
            is_output ev = false ->
            let outcome :=
              match listing with
              | Raise e => (Raise e, log ev w0)
              | Ok found =>
                  match estimate_files (get_files found) (Args.model args)
                          (Args.overhead_percent args) with
                  | Raise e => (Raise e, log ev w0)
                  | Ok result => report_and_exit result args (log ev w0)
                  end
              end in
            fst outcome = Raise e ->
            existsb is_output (new_events w (snd outcome)) = false).
  { intros ev listing Hev. cbv zeta.
    destruct (finish_events args w (log ev w0) (pre0 ++ [ev]) listing)
      as (rest & Hnew & _ & Hfail).
    { rewrite trace_log, Hw0, <- app_assoc. reflexivity. }
    cbv zeta in Hnew, Hfail. intros Hr. rewrite Hnew, (Hfail e Hr), app_nil_r.
    rewrite existsb_app, Hpre0. cbn [existsb orb]. rewrite Hev. reflexivity. }
  destruct (truthy (Args.dir args)).
  - apply Hstep. reflexivity.
  - destruct (truthy (Args.repo args)).
    + apply Hstep. reflexivity.
    + cbn [fst snd]. intros _. rewrite (new_events_app w w0 pre0 Hw0). exact Hpre0.
Qed.

Lemma main_after_parsing (argv : estimate_argv) (args : Args.t) (w : World) :
  parse_args argv w = (Ok args, w) ->
  main crawl_local_files crawl_github_files argv w =
  match run args w with
  | (Ok exit_code, w') => (Raise (SystemExit exit_code), w')
  | (Raise e, w') => (Raise e, w')
  end.
Proof.
  intros Hparse. unfold main. unfold bind at 1. rewrite Hparse.
  unfold bind, raise. destruct (run args w) as [[c|e] w']; reflexivity.
Qed.

(** X13.  The exception of a crawl adapter ends the program as it is:
    neither [run_estimate_cli] nor [main] catches it or turns it into an
    exit status. *)
Theorem adapter_failure_propagates (argv : estimate_argv) (args : Args.t) (w : World)
    (e : exn) :
  parse_args argv w = (Ok args, w) ->
  (truthy (Args.dir args) = true /\
   crawl_local_files (text_of (Args.dir args)) (pattern_set (Args.include args))
     (pattern_set (Args.exclude args)) (Args.max_size args) true = Raise e) \/
  (truthy (Args.dir args) = false /\ truthy (Args.repo args) = true /\
   crawl_github_files (text_of (Args.repo args)) (token_or_environ (Args.token args) w)
     (Args.max_size args) true (pattern_set (Args.include args))
     (pattern_set (Args.exclude args)) = Raise e) ->
  fst (main crawl_local_files crawl_github_files argv w) = Raise e.
Proof.
  intros Hparse Hfail. rewrite (main_after_parsing argv args w Hparse).
  rewrite run_estimate_cli_eq. cbv zeta.
  destruct Hfail as [[Hdir Hraise]|(Hdir & Hrepo & Hraise)].
  - rewrite Hdir, Hraise. reflexivity.
  - rewrite Hdir, Hrepo, Hraise. reflexivity.
Qed.

End Coverage.

(** X14.  A run on a directory is a function of one listing: the adapters
    matter only through the answer of the local one to the directory, the
    duplicate-free pattern sets ([None] when no pattern is given), the size
    limit and [use_relative_paths=True]. *)
Theorem dir_run_depends_on_one_listing
    (local local' :
       forall (directory : string) (include_patterns exclude_patterns : patterns)
              (max_file_size : Z) (use_relative_paths : bool), result crawl_result)
    (github github' :
       forall (repo_url : string) (token : option string) (max_file_size : Z)
              (use_relative_paths : bool) (include_patterns exclude_patterns : patterns),
         result crawl_result)
    (args : Args.t) (w : World) :
  truthy (Args.dir args) = true ->
  local (text_of (Args.dir args)) (pattern_set (Args.include args))
    (pattern_set (Args.exclude args)) (Args.max_size args) true =
  local' (text_of (Args.dir args)) (pattern_set (Args.include args))
    (pattern_set (Args.exclude args)) (Args.max_size args) true ->
  run_estimate_cli local github args w = run_estimate_cli local' github' args w.
Proof.
  intros Hdir Hsame. rewrite !run_estimate_cli_eq. cbv zeta.
  rewrite Hdir, Hsame. reflexivity.
Qed.

Lemma apply_overhead_of_nothing (p : Float64.float) :
  Float64.is_nonneg_finite p = true ->
  valid_binary Float64.prec Float64.emax p = true ->
  apply_overhead 0 p = Ok 0.
Proof.
  intros Hp Hv. destruct (truediv_hundred_error p Hp Hv) as [Hx _].
  unfold apply_overhead.
  change (Float64.of_int 0) with (Ok (S754_zero false) : result Float64.float).
  cbn [rbind].
  destruct (Float64.truediv p hundred) as [s|s| |[] m e]; try discriminate Hx; reflexivity.
Qed.

(** The report of no file, printed after the events [pre]. *)
Lemma zero_report_printed (args : Args.t) (w w1 : World) (pre : list io_event) :
  trace w1 = trace w ++ pre ->
  let nothing :=
    {| model := Args.model args;
       max_context_tokens := None;
       overhead_percent := Args.overhead_percent args;
       sum_file_tokens := 0;
       overhead_tokens := 0;
       total_tokens := 0;
       files := [] |} in
  fst (report_and_exit nothing args w1) =
    Ok (if 0 <=? Args.max_context_tokens args then 0 else 2) /\
  exists doc,
    In (PrintJson doc) (new_events w (snd (report_and_exit nothing args w1))) /\
    printed_sum_file_tokens doc = 0 /\ printed_overhead_tokens doc = 0 /\
    printed_total_tokens doc = 0 /\ file_count doc = 0 /\
    printed_within_limit doc = (0 <=? Args.max_context_tokens args).
Proof.
  intros Hw1. cbv zeta.
  rewrite report_and_exit_eq. cbv zeta. cbn [fst snd total_tokens files len
    List.length Z.of_nat model overhead_percent sum_file_tokens overhead_tokens].
  split; [reflexivity|].
  set (doc := {| printed_model := Args.model args;
                 printed_max_context_tokens := Some (Args.max_context_tokens args);
                 printed_overhead_percent := Args.overhead_percent args;
                 printed_sum_file_tokens := 0;
                 printed_overhead_tokens := 0;
                 printed_total_tokens := 0;
                 printed_within_limit := 0 <=? Args.max_context_tokens args;
                 file_count := 0 |}).
  exists doc. split; [|repeat split; reflexivity].
  match goal with |- In _ (new_events w ?w') =>
    assert (Htr : exists tail, trace w' = trace w ++ pre ++ PrintJson doc :: tail)
  end.
  { destruct (truthy (Args.out args)).
    - destruct (write_error w1 (text_of (Args.out args))).
      + eexists. rewrite !trace_log, Hw1, <- !app_assoc. cbn [app]. reflexivity.
      + eexists. rewrite !trace_log, Hw1, <- !app_assoc. cbn [app]. reflexivity.
    - exists []. rewrite trace_log, Hw1, <- app_assoc. reflexivity. }
  destruct Htr as (tail & Htr). rewrite (new_events_app _ _ _ Htr).
  apply in_or_app. right. left. reflexivity.
Qed.

(** X15.  A listing without files is not an error: when the dictionary of
    the adapter that is called, the local one or the GitHub one, has no
    ["files"] key, or an empty one, the run prints a summary of zero files
    and zero tokens and returns 0, unless the limit is negative. *)
Theorem empty_listing_reports_zero
    (local :
       forall (directory : string) (include_patterns exclude_patterns : patterns)
              (max_file_size : Z) (use_relative_paths : bool), result crawl_result)
    (github :
       forall (repo_url : string) (token : option string) (max_file_size : Z)
              (use_relative_paths : bool) (include_patterns exclude_patterns : patterns),
         result crawl_result)
    (args : Args.t) (w : World) (found : crawl_result) :
  (truthy (Args.dir args) = true /\
   local (text_of (Args.dir args)) (pattern_set (Args.include args))
     (pattern_set (Args.exclude args)) (Args.max_size args) true = Ok found) \/
  (truthy (Args.dir args) = false /\ truthy (Args.repo args) = true /\
   github (text_of (Args.repo args)) (token_or_environ (Args.token args) w)
     (Args.max_size args) true (pattern_set (Args.include args))
     (pattern_set (Args.exclude args)) = Ok found) ->
  get_files found = [] ->
  Float64.is_nonneg_finite (Args.overhead_percent args) = true ->
  valid_binary Float64.prec Float64.emax (Args.overhead_percent args) = true ->
  fst (run_estimate_cli local github args w) =
    Ok (if 0 <=? Args.max_context_tokens args then 0 else 2) /\
  exists doc,
    In (PrintJson doc) (new_events w (snd (run_estimate_cli local github args w))) /\
    printed_sum_file_tokens doc = 0 /\ printed_overhead_tokens doc = 0 /\
    printed_total_tokens doc = 0 /\ file_count doc = 0 /\
    printed_within_limit doc = (0 <=? Args.max_context_tokens args).
Proof.
  intros Hfound Hempty Hp Hv. rewrite run_estimate_cli_eq. cbv zeta.
  assert (Hzero : estimate_files (get_files found) (Args.model args)
                    (Args.overhead_percent args) =
                  Ok {| model := Args.model args;
                        max_context_tokens := None;
                        overhead_percent := Args.overhead_percent args;
                        sum_file_tokens := 0;
                        overhead_tokens := 0;
                        total_tokens := 0;
                        files := [] |}).
  { rewrite Hempty, estimate_files_eq. cbn [forallb].
    change (total_of (Args.model args) []) with 0.
    rewrite (apply_overhead_of_nothing _ Hp Hv). reflexivity. }
  destruct Hfound as [[Hdir Hlist]|(Hdir & Hrepo & Hlist)].
  - rewrite Hdir, Hlist, Hzero.
    destruct (truthy (Args.repo args) && negb (truthy (Args.token args))).
    + apply (zero_report_printed args w _
               [EnvironGet "GITHUB_TOKEN"; CrawlLocal (text_of (Args.dir args))]).
      rewrite !trace_log, <- app_assoc. reflexivity.
    + apply (zero_report_printed args w _ [CrawlLocal (text_of (Args.dir args))]).
      apply trace_log.
  - rewrite Hdir, Hrepo, Hlist, Hzero. cbn [andb].
    destruct (negb (truthy (Args.token args))).
    + apply (zero_report_printed args w _
               [EnvironGet "GITHUB_TOKEN";
                CrawlGithub (text_of (Args.repo args))
                  (token_or_environ (Args.token args) w)]).
      rewrite !trace_log, <- app_assoc. reflexivity.
    + apply (zero_report_printed args w _
               [CrawlGithub (text_of (Args.repo args))
                  (token_or_environ (Args.token args) w)]).
      apply trace_log.
Qed.

(** X16.  The report step prints the summary first, with the number of
    entries and without the entries themselves.  It touches the file
    system only when a non-empty destination is given: then it writes one
    document, which carries every entry, the limit and the same verdict as
    the summary, or, when the write fails, prints one more line. *)
Theorem report_written_only_on_request (result : report) (args : Args.t) (w : World) :
  exists doc tail,
    new_events w (snd (report_and_exit result args w)) = PrintJson doc :: tail /\
    file_count doc = len (files result) /\
    (truthy (Args.out args) = false -> tail = []) /\
    (truthy (Args.out args) = true ->
     match write_error w (text_of (Args.out args)) with
     | None =>
         exists doc',
           tail = [FileWritten (text_of (Args.out args)) doc'] /\
           files (payload_result doc') = files result /\
           max_context_tokens (payload_result doc') = Some (Args.max_context_tokens args) /\
           total_tokens (payload_result doc') = printed_total_tokens doc /\
           within_limit doc' = printed_within_limit doc
     | Some _ => exists text, tail = [PrintLine text]
     end).
Proof.
  rewrite report_and_exit_eq. cbv zeta. cbn [snd].
  destruct (truthy (Args.out args)).
  - destruct (write_error w (text_of (Args.out args))).
    + eexists; eexists. split; [apply new_events_log2|].
      split; [reflexivity|]. split; [discriminate|]. intros _. eexists. reflexivity.
    + eexists; eexists. split; [apply new_events_log2|].
      split; [reflexivity|]. split; [discriminate|]. intros _.
      eexists. repeat split; reflexivity.
  - eexists; eexists. split; [apply new_events_log|].
    split; [reflexivity|]. split; [reflexivity|discriminate].
Qed.

(** ** The tutorial command *)

Section TutorialProperties.

Variable capitalize : string -> string.
Variable tutorial_flow_run : Shared.t -> M unit.

Local Abbreviation tutorial := (main_tutorial capitalize tutorial_flow_run).

(** X17.  The tutorial command resolves the token as the estimate does and
    warns when there is none: without [--repo] the token handed to the flow
    is [None] (a [--token] is ignored) and the environment is not read;
    with [--repo] it is the non-empty [--token] or else [GITHUB_TOKEN], and
    the warning is printed exactly when that is [None] or empty.  The flow
    is always reached. *)
Theorem tutorial_token_and_warning (args : Namespace.t) (w : World) :
  let github_token :=
    if truthy (Namespace.repo args) then token_or_environ (Namespace.token args) w
    else None in
  exists shared w1,
    tutorial args w = tutorial_flow_run shared w1 /\
    Shared.github_token shared = github_token /\
    (In (PrintLine token_warning) (new_events w w1) <->
     truthy (Namespace.repo args) = true /\ truthy github_token = false) /\
    (In (EnvironGet "GITHUB_TOKEN") (new_events w w1) <->
     truthy (Namespace.repo args) = true /\ truthy (Namespace.token args) = false).
Proof.
  cbv zeta. unfold main_tutorial, token_or_environ.
  destruct (truthy (Namespace.repo args)) eqn:Hrepo.
  - destruct (truthy (Namespace.token args)) eqn:Htok.
    + unfold bind, ret, emit. rewrite Htok.
      eexists; eexists. split; [reflexivity|]. split; [reflexivity|].
      rewrite new_events_log2.
      split; split; intros H.
      * not_among H.
      * destruct H as [_ H]. discriminate H.
      * not_among H.
      * destruct H as [_ H]. discriminate H.
    + unfold bind, ret, emit, environ_get.
      destruct (truthy (environ w "GITHUB_TOKEN")) eqn:Henv.
      * eexists; eexists. split; [reflexivity|]. split; [reflexivity|].
        erewrite new_events_app
          by (rewrite !trace_log, <- !app_assoc; cbn [app]; reflexivity).
        split; split; intros H.
        -- not_among H.
        -- destruct H as [_ H]. discriminate H.
        -- split; reflexivity.
        -- left. reflexivity.
      * eexists; eexists. split; [reflexivity|]. split; [reflexivity|].
        erewrite new_events_app
          by (rewrite !trace_log, <- !app_assoc; cbn [app]; reflexivity).
        split; split; intros H.
        -- split; reflexivity.
        -- right. left. reflexivity.
        -- split; reflexivity.
        -- left. reflexivity.
  - unfold bind, ret, emit.
    eexists; eexists. split; [reflexivity|]. split; [reflexivity|].
    rewrite new_events_log2.
    split; split; intros H.
    + not_among H.
    + destruct H as [H _]. discriminate H.
    + not_among H.
    + destruct H as [H _]. discriminate H.
Qed.

Lemma pattern_set_or_invariant (defaults : list string) (xs : option (list string)) :
  defaults <> [] -> NoDup defaults ->
  pattern_set_or defaults xs <> [] /\ NoDup (pattern_set_or defaults xs) /\
  (forall x, In x (pattern_set_or defaults xs) <->
             In x (match xs with Some (y :: l) => y :: l | _ => defaults end)).
Proof.
  intros Hne Hnd. unfold pattern_set_or.
  destruct xs as [[|x rest]|]; try (repeat split; tauto).
  split; [|split].
  - intros Hnil.
    assert (Hin : In x (nodup string_dec (x :: rest))).
    { apply nodup_In. left. reflexivity. }
    rewrite Hnil in Hin. exact Hin.
  - apply NoDup_nodup.
  - intros y. apply nodup_In.
Qed.

(** X18.  The flow never starts without patterns: the include and exclude
    sets it receives are not empty and hold no pattern twice; they are the
    patterns given on the command line, or the default sets when none is
    given (where the estimate passes [None] to its adapter). *)
Theorem tutorial_patterns_never_empty (args : Namespace.t) (w : World) :
  exists shared w1,
    tutorial args w = tutorial_flow_run shared w1 /\
    Shared.include_patterns shared <> [] /\ NoDup (Shared.include_patterns shared) /\
    Shared.exclude_patterns shared <> [] /\ NoDup (Shared.exclude_patterns shared) /\
    (forall x, In x (Shared.include_patterns shared) <->
               In x (match Namespace.include args with
                     | Some (y :: l) => y :: l
                     | _ => DEFAULT_INCLUDE_PATTERNS
                     end)) /\
    (forall x, In x (Shared.exclude_patterns shared) <->
               In x (match Namespace.exclude args with
                     | Some (y :: l) => y :: l
                     | _ => DEFAULT_EXCLUDE_PATTERNS
                     end)).
Proof.
  assert (Hinc : DEFAULT_INCLUDE_PATTERNS <> [] /\ NoDup DEFAULT_INCLUDE_PATTERNS).
  { split; [discriminate|].
    apply (NoDup_count_occ' string_dec). intros x Hx.
    repeat (destruct Hx as [<-|Hx]; [vm_compute; reflexivity|]). destruct Hx. }
  assert (Hexc : DEFAULT_EXCLUDE_PATTERNS <> [] /\ NoDup DEFAULT_EXCLUDE_PATTERNS).
  { split; [discriminate|].
    apply (NoDup_count_occ' string_dec). intros x Hx.
    repeat (destruct Hx as [<-|Hx]; [vm_compute; reflexivity|]). destruct Hx. }
  destruct (pattern_set_or_invariant _ (Namespace.include args) (proj1 Hinc) (proj2 Hinc))
    as (I1 & I2 & I3).
  destruct (pattern_set_or_invariant _ (Namespace.exclude args) (proj1 Hexc) (proj2 Hexc))
    as (E1 & E2 & E3).
  unfold main_tutorial. unfold bind at 1.
  match goal with |- context [match ?m w with (_, _) => _ end] =>
    assert (Hm : exists tok w0, m w = (Ok tok, w0))
  end.
  { destruct (truthy (Namespace.repo args)); [|eexists; eexists; reflexivity].
    unfold bind, ret, emit, environ_get.
    destruct (truthy (Namespace.token args)).
    - destruct (truthy (Namespace.token args)); eexists; eexists; reflexivity.
    - destruct (truthy (environ w "GITHUB_TOKEN")); eexists; eexists; reflexivity. }
  destruct Hm as (tok & w0 & ->).
  unfold bind, emit.
  eexists; eexists. split; [reflexivity|].
  cbn [Shared.include_patterns Shared.exclude_patterns].
  repeat split; try assumption; try apply I3; try apply E3.
Qed.

End TutorialProperties.

(** ** The further properties at concrete inputs *)

(** X3 at three accented letters. *)
Lemma heuristic_exact_in_doubles_accented :
  len three_e_acute < 2 ^ 53 /\
  approx_tokens_in_doubles (len three_e_acute) = Ok (_heuristic_token_count three_e_acute).
Proof.
  split; [reflexivity|].
  apply (heuristic_exact_in_doubles three_e_acute). reflexivity.
Defined.

(** X4 at a file of three accented letters: 1 token, 6 bytes. *)
Lemma tokens_bounded_by_size_bytes_accented :
  exists r,
    estimate_files accented_file None three = Ok r /\
    Forall (fun entry => 4 * tokens entry - 3 <= size_bytes entry <= 16 * tokens entry)
      (files r).
Proof.
  eexists. split; [vm_compute; reflexivity|].
  apply (tokens_bounded_by_size_bytes accented_file None three).
  vm_compute; reflexivity.
Defined.

(** X5 at the two files of the scenario. *)
Lemma report_totals_its_entries_scenario :
  exists r,
    estimate_files two_files (Some "gpt-5") three = Ok r /\
    sum_file_tokens r = fold_right Z.add 0 (map tokens (files r)) /\
    map path (files r) = map fst two_files /\
    total_tokens r = sum_file_tokens r + overhead_tokens r.
Proof.
  eexists. split; [vm_compute; reflexivity|].
  apply (report_totals_its_entries two_files (Some "gpt-5") three).
  vm_compute; reflexivity.
Defined.

(** X7 at the two files of the scenario, with 3 and with -3 percent. *)
Lemma overhead_follows_sign_of_percent_both :
  has_sign false three = true /\ has_sign true minus_three = true /\
  (exists r,
     estimate_files two_files None three = Ok r /\
     0 <= overhead_tokens r /\ sum_file_tokens r <= total_tokens r) /\
  (exists r,
     estimate_files two_files None minus_three = Ok r /\
     overhead_tokens r <= 0 /\ total_tokens r <= sum_file_tokens r).
Proof.
  split; [reflexivity|]. split; [reflexivity|]. split.
  - eexists. split; [vm_compute; reflexivity|].
    apply (overhead_follows_sign_of_percent false two_files None three);
      [reflexivity|vm_compute; reflexivity].
  - eexists. split; [vm_compute; reflexivity|].
    apply (overhead_follows_sign_of_percent true two_files None minus_three);
      [reflexivity|vm_compute; reflexivity].
Defined.

(** X8 at an infinite percentage. *)
Lemma non_finite_percent_always_raises_infinity :
  is_finite positive_infinity = false /\
  (estimate_files two_files None positive_infinity = Raise UnicodeEncodeError \/
   (exists msg, estimate_files two_files None positive_infinity = Raise (OverflowError msg)) \/
   (exists msg, estimate_files two_files None positive_infinity = Raise (ValueError msg))).
Proof.
  split; [reflexivity|].
  apply (non_finite_percent_always_raises two_files None positive_infinity).
  reflexivity.
Defined.

(** X9 at a call with both a directory and a repository. *)
Lemma local_path_shadows_repository_both :
  truthy (Some "proj") = true /\
  _gather_files local_stub github_stub (Some "proj") (Some "https://github.com/o/r")
    None None 100000 None quiet_world =
  _gather_files local_stub failing_github (Some "proj") None
    None None 100000 (Some "ghp_env") quiet_world /\
  new_events quiet_world
    (snd (_gather_files local_stub github_stub (Some "proj")
            (Some "https://github.com/o/r") None None 100000 None quiet_world)) =
  [CrawlLocal "proj"].
Proof.
  split; [reflexivity|].
  apply (local_path_shadows_repository local_stub github_stub failing_github
           (Some "proj") (Some "https://github.com/o/r") None None None 100000
           None (Some "ghp_env") quiet_world).
  reflexivity.
Defined.

(** X10 at [estimate-repo --dir proj]. *)
Lemma dir_run_crawls_once_and_stays_local_proj :
  truthy (Args.dir (sample_args 1000 None)) = true /\
  truthy (Args.repo (sample_args 1000 None)) = false /\
  exists rest,
    new_events token_world
      (snd (run_estimate_cli local_stub github_stub (sample_args 1000 None) token_world)) =
    CrawlLocal "proj" :: rest /\
    forallb is_output rest = true.
Proof.
  split; [reflexivity|]. split; [reflexivity|].
  apply (dir_run_crawls_once_and_stays_local local_stub github_stub
           (sample_args 1000 None) token_world); reflexivity.
Defined.

(** X14 at two pairs of adapters that agree on the directory [proj]
    only. *)
Lemma dir_run_depends_on_one_listing_proj :
  truthy (Args.dir (sample_args 1000 None)) = true /\
  local_stub "proj" None None 100000 true = proj_only_local "proj" None None 100000 true /\
  run_estimate_cli local_stub github_stub (sample_args 1000 None) quiet_world =
  run_estimate_cli proj_only_local failing_github (sample_args 1000 None) quiet_world.
Proof.
  split; [reflexivity|]. split; [reflexivity|].
  apply (dir_run_depends_on_one_listing local_stub proj_only_local github_stub
           failing_github (sample_args 1000 None) quiet_world); reflexivity.
Defined.

(** X11 at [estimate-repo --repo URL] with the token in the environment. *)
Lemma repo_run_resolves_token_environ :
  truthy (Args.dir (repo_args None)) = false /\
  truthy (Args.repo (repo_args None)) = true /\
  exists rest,
    new_events token_world
      (snd (run_estimate_cli local_stub github_stub (repo_args None) token_world)) =
    [EnvironGet "GITHUB_TOKEN"]
    ++ CrawlGithub "https://github.com/o/r" (Some "ghp_env") :: rest /\
    forallb is_output rest = true.
Proof.
  split; [reflexivity|]. split; [reflexivity|].
  apply (repo_run_resolves_token local_stub github_stub (repo_args None) token_world);
    reflexivity.
Defined.

(** X12 at a directory that cannot be read. *)
Lemma failed_run_prints_nothing_unreadable :
  fst (run_estimate_cli failing_local github_stub (sample_args 1000 (Some "out.json"))
         quiet_world) = Raise (AdapterError "Directory does not exist") /\
  existsb is_output
    (new_events quiet_world
       (snd (run_estimate_cli failing_local github_stub
               (sample_args 1000 (Some "out.json")) quiet_world))) = false.
Proof.
  split; [reflexivity|].
  apply (failed_run_prints_nothing failing_local github_stub
           (sample_args 1000 (Some "out.json")) quiet_world
           (AdapterError "Directory does not exist")).
  reflexivity.
Defined.

(** X13 at [estimate-repo --dir proj] and a directory that cannot be
    read. *)
Lemma adapter_failure_propagates_unreadable :
  parse_args (dir_flag 1000) quiet_world = (Ok (sample_args 1000 None), quiet_world) /\
  failing_local "proj" None None 100000 true
    = Raise (AdapterError "Directory does not exist") /\
  fst (main failing_local github_stub (dir_flag 1000) quiet_world)
    = Raise (AdapterError "Directory does not exist").
Proof.
  split; [reflexivity|]. split; [reflexivity|].
  apply (adapter_failure_propagates failing_local github_stub (dir_flag 1000)
           (sample_args 1000 None) quiet_world); [reflexivity|].
  left. split; reflexivity.
Defined.

(** X15 at adapters whose dictionary has no ["files"] key, the local one
    and the GitHub one. *)
Lemma empty_listing_reports_zero_keyless :
  (keyless_local "proj" None None 100000 true = Ok {| crawl_files := None |} /\
   keyless_github "https://github.com/o/r" (Some "ghp_env") 100000 true None None
     = Ok {| crawl_files := None |} /\
   get_files {| crawl_files := None |} = []) /\
  (fst (run_estimate_cli keyless_local github_stub (sample_args 1000 None) quiet_world) =
     Ok 0 /\
   exists doc,
     In (PrintJson doc)
        (new_events quiet_world
           (snd (run_estimate_cli keyless_local github_stub (sample_args 1000 None)
                   quiet_world))) /\
     printed_sum_file_tokens doc = 0 /\ printed_overhead_tokens doc = 0 /\
     printed_total_tokens doc = 0 /\ file_count doc = 0 /\
     printed_within_limit doc = true) /\
  (fst (run_estimate_cli local_stub keyless_github (repo_args None) token_world) =
     Ok 0 /\
   exists doc,
     In (PrintJson doc)
        (new_events token_world
           (snd (run_estimate_cli local_stub keyless_github (repo_args None)
                   token_world))) /\
     printed_sum_file_tokens doc = 0 /\ printed_overhead_tokens doc = 0 /\
     printed_total_tokens doc = 0 /\ file_count doc = 0 /\
     printed_within_limit doc = true).
Proof.
  split; [repeat split; reflexivity|]. split.
  - apply (empty_listing_reports_zero keyless_local github_stub (sample_args 1000 None)
             quiet_world {| crawl_files := None |});
      [left; split; reflexivity|reflexivity|reflexivity|reflexivity].
  - apply (empty_listing_reports_zero local_stub keyless_github (repo_args None)
             token_world {| crawl_files := None |});
      [right; repeat split; reflexivity|reflexivity|reflexivity|reflexivity].
Defined.
